(** * D-Rats map tiles: the tile cache and fetch engine of [d_rats/map/maptile.py]

    A shallow embedding of class [MapTile]: the Web-Mercator tile arithmetic
    on binary64 floats, the on-disk tile cache with its "bad" markers and
    expiry, and the fetch of a missing tile from the tile server.

    Conventions of the embedding.
    - Python [float] is IEEE 754 binary64, taken from the Standard Library's
      [SpecFloat] (round to nearest even, no axiom involved).  Python [int]
      is [Z].
    - A Python call either returns or raises: [result].  Methods that touch
      the class attributes, the file system, the clock or the network thread
      a [World] and return [result A * World].
    - The functions of Python's [math] module that the C library computes
      ([tan], [cos], [log], [atan], [sinh]) are a parameter, [MathModule].
    - Paths are POSIX paths, compared as strings.  Writing to the local file
      system always succeeds (no permission, disk-full or is-a-directory
      failure is modelled).  Logging is omitted.
    - The clock stands still during a call; a file written during a call is
      stamped with the time of the call. *)

From Stdlib Require Import ZArith String Ascii List Bool Lia DecimalString.
From Stdlib Require Import Floats.SpecFloat.
From Stdlib Require DecimalZ.
From stdpp Require Import gmap strings list.

Local Open Scope string_scope.
Local Open Scope Z_scope.

(** ** Python results *)

Inductive transport_failure :=
| Timeout
| DNSFailure
| ConnectionRefused
| ConnectionReset.

(** The exceptions that can leave the modelled methods.  [MapNotConnected],
    [MapTileNotFound] and [MapFetchError] are the three subclasses of
    [MapFetchUrlException]; [MapFetchError] is raised with the [HTTPError]
    it wraps, kept here as its status code.  [TransportError] stands for
    what [urllib] raises when no HTTP status was received ([URLError],
    [TimeoutError], [ConnectionResetError], ...). *)
Inductive exn :=
| TypeError
| AttributeError
| ValueError
| OverflowError
| ZeroDivisionError
| FileNotFoundError
| TransportError (why : transport_failure)
| MapNotConnected (msg : string)
| MapTileNotFound (msg : string)
| MapFetchError (http_code : Z).

Inductive result (A : Type) :=
| Ok (a : A)
| Raise (e : exn).
Arguments Ok {A} a.
Arguments Raise {A} e.

Definition rbind {A B} (m : result A) (k : A -> result B) : result B :=
  match m with
  | Ok a => k a
  | Raise e => Raise e
  end.

Notation "'let?' x ':=' m 'in' k" := (rbind m (fun x => k))
  (at level 10, x pattern, m at level 100, k at level 200).

(** [except MapFetchUrlException] catches exactly the three subclasses. *)
Definition isinstance_MapFetchUrlException (e : exn) : bool :=
  match e with
  | MapNotConnected _ | MapTileNotFound _ | MapFetchError _ => true
  | _ => false
  end.

Definition isinstance_MapTileNotFound (e : exn) : bool :=
  match e with
  | MapTileNotFound _ => true
  | _ => false
  end.

(** ** Python floats *)

Module PyFloat.

Definition prec : Z := 53.
Definition emax : Z := 1024.
Definition float : Type := spec_float.

(** [float(n)] for a Python int, and the float literals of the source. *)
Definition of_int (n : Z) : float := binary_normalize prec emax n 0 false.

Definition add (x y : float) : float := SFadd prec emax x y.
Definition sub (x y : float) : float := SFsub prec emax x y.
Definition mul (x y : float) : float := SFmul prec emax x y.
Definition ltb (x y : float) : bool := SFltb x y.

Definition is_zero (x : float) : bool :=
  match x with
  | S754_zero _ => true
  | _ => false
  end.

(** [x / y] on floats raises [ZeroDivisionError] when [y] is a zero. *)
Definition div (x y : float) : result float :=
  if is_zero y then Raise ZeroDivisionError else Ok (SFdiv prec emax x y).

(** [2.0 ** n] for a Python int [n]: exact, [OverflowError] from 2**1024 on,
    zero below the subnormal range. *)
Definition pow2 (n : Z) : result float :=
  if emax <=? n then Raise OverflowError
  else Ok (binary_normalize prec emax 1 n false).

(** [int(x)]: truncation toward zero. *)
Definition to_int (x : float) : result Z :=
  match x with
  | S754_zero _ => Ok 0
  | S754_infinity _ => Raise OverflowError
  | S754_nan => Raise ValueError
  | S754_finite s m e =>
      let a := Z.shiftl (Zpos m) e in
      Ok (if s then - a else a)
  end.

(** [x < n] for a float [x] and a Python int [n]: Python compares the two
    exactly, without converting [n] to a float. *)
Definition lt_int (x : float) (n : Z) : bool :=
  match x with
  | S754_zero _ => 0 <? n
  | S754_infinity s => s
  | S754_nan => false
  | S754_finite s m e =>
      let v := if s then Zneg m else Zpos m in
      if 0 <=? e then v * 2 ^ e <? n else v <? n * 2 ^ (- e)
  end.

(** [math.pi], the binary64 number 0x1.921fb54442d18p+1. *)
Definition pi : float := S754_finite false 7074237752028440 (-51).

(** [math.radians] and [math.degrees] as CPython computes them: one
    multiplication by the constant [pi / 180.0], respectively
    [180.0 / pi]. *)
Definition degToRad : float := SFdiv prec emax pi (of_int 180).
Definition radToDeg : float := SFdiv prec emax (of_int 180) pi.
Definition radians (x : float) : float := mul x degToRad.
Definition degrees (x : float) : float := mul x radToDeg.

End PyFloat.

(** ** POSIX paths *)

Module posixpath.

Definition is_sep (c : ascii) : bool := Ascii.eqb c "/"%char.

Fixpoint drop_while {A} (f : A -> bool) (l : list A) : list A :=
  match l with
  | [] => []
  | a :: l' => if f a then drop_while f l' else l
  end.

Definition startswith_sep (p : string) : bool :=
  match p with
  | String c _ => is_sep c
  | EmptyString => false
  end.

Definition endswith_sep (p : string) : bool :=
  match rev (list_ascii_of_string p) with
  | c :: _ => is_sep c
  | [] => false
  end.

(** [os.path.join(a, b)]. *)
Definition join (a b : string) : string :=
  if startswith_sep b then b
  else if (String.length a =? 0)%nat || endswith_sep a then a +:+ b
  else a +:+ "/" +:+ b.

(** [os.path.dirname(p)]: the part before the last separator, without its
    trailing separators unless it consists of separators only. *)
Definition dirname (p : string) : string :=
  let head := drop_while (fun c => negb (is_sep c)) (rev (list_ascii_of_string p)) in
  let head := if forallb is_sep head then head else drop_while is_sep head in
  string_of_list_ascii (rev head).

End posixpath.

(** ** The world a tile lives in *)

Import PyFloat.

Inductive node :=
| Dir (st_mtime : float)
| File (content : list Byte.byte) (st_mtime : float).

Definition st_mtime (n : node) : float :=
  match n with
  | Dir t | File _ t => t
  end.

Definition is_dir (n : node) : bool :=
  match n with
  | Dir _ => true
  | File _ _ => false
  end.

(** What the tile server does with a GET of a URL: [urlopen] returns a
    response whose body can be read, raises [HTTPError] with a status code,
    or fails below HTTP. *)
Inductive http_outcome :=
| Response (body : list Byte.byte)
| HTTPError (code : Z)
| NoAnswer (why : transport_failure).

Inductive MapWidget := Widget (id : nat).

(** The class attributes of [MapTile].  [_map_url] has no default in the
    class body: [None] here means the attribute is not defined yet. *)
Record MapTileClass := {
  _base_dir : option string;
  _connected : bool;
  _map_key : option string;
  _map_url_key : option string;
  _map_url : option string;
  _proxy : option string;
  _tile_lifetime : Z;
  _zoom : Z;
  _map_widget : option MapWidget
}.

(** The class as its body defines it. *)
Definition MapTile_class_body : MapTileClass := {|
  _base_dir := None;
  _connected := false;
  _map_key := None;
  _map_url_key := None;
  _map_url := None;
  _proxy := None;
  _tile_lifetime := 0;
  _zoom := 0;
  _map_widget := None
|}.

Record World := {
  cls : MapTileClass;
  fs : gmap string node;
  clock : float;
  server : string -> http_outcome;
  requests : list string;
  opener_proxy : option string;
  redraws : nat
}.

Definition with_cls (c : MapTileClass) (w : World) : World :=
  {| cls := c; fs := fs w; clock := clock w; server := server w;
     requests := requests w; opener_proxy := opener_proxy w;
     redraws := redraws w |}.

Definition with_fs (f : gmap string node) (w : World) : World :=
  {| cls := cls w; fs := f; clock := clock w; server := server w;
     requests := requests w; opener_proxy := opener_proxy w;
     redraws := redraws w |}.

Definition with_clock (t : float) (w : World) : World :=
  {| cls := cls w; fs := fs w; clock := t; server := server w;
     requests := requests w; opener_proxy := opener_proxy w;
     redraws := redraws w |}.

Definition with_request (url : string) (w : World) : World :=
  {| cls := cls w; fs := fs w; clock := clock w; server := server w;
     requests := url :: requests w; opener_proxy := opener_proxy w;
     redraws := redraws w |}.

Definition with_opener (p : option string) (w : World) : World :=
  {| cls := cls w; fs := fs w; clock := clock w; server := server w;
     requests := requests w; opener_proxy := p;
     redraws := redraws w |}.

Definition with_redraw (w : World) : World :=
  {| cls := cls w; fs := fs w; clock := clock w; server := server w;
     requests := requests w; opener_proxy := opener_proxy w;
     redraws := S (redraws w) |}.

(** ** Methods as state-and-exception computations *)

Definition Py (A : Type) : Type := World -> result A * World.

Definition ret {A} (a : A) : Py A := fun w => (Ok a, w).
Definition raise {A} (e : exn) : Py A := fun w => (Raise e, w).
Definition gets {A} (f : World -> A) : Py A := fun w => (Ok (f w), w).
Definition modify (f : World -> World) : Py unit := fun w => (Ok tt, f w).

Definition bind {A B} (m : Py A) (k : A -> Py B) : Py B :=
  fun w =>
    match m w with
    | (Ok a, w') => k a w'
    | (Raise e, w') => (Raise e, w')
    end.

Notation "'let*' x ':=' m 'in' k" := (bind m (fun x => k))
  (at level 10, x pattern, m at level 100, k at level 200).

(** [try: m  except ...: handler]: [handler e] is [None] when no [except]
    clause matches [e], which then propagates. *)
Definition try_except {A} (m : Py A) (handler : exn -> option (Py A)) : Py A :=
  fun w =>
    match m w with
    | (Ok a, w') => (Ok a, w')
    | (Raise e, w') =>
        match handler e with
        | Some h => h w'
        | None => (Raise e, w')
        end
    end.

(** Truth value of an attribute that is [None] or a string. *)
Definition truthy (s : option string) : bool :=
  match s with
  | Some s => negb (String.length s =? 0)%nat
  | None => false
  end.

(** *** [os], [time] and [urllib] *)

Definition present (f : gmap string node) (p : string) : bool :=
  match f !! p with
  | Some _ => true
  | None => false
  end.

(** [os.path.exists(p)]; [p] is [None] when the caller passes Python's
    [None], which [os.stat] refuses with a [TypeError]. *)
Definition os_path_exists (p : option string) : Py bool :=
  match p with
  | None => raise TypeError
  | Some p => gets (fun w => present (fs w) p)
  end.

Definition isdir (f : gmap string node) (p : string) : bool :=
  match f !! p with
  | Some n => is_dir n
  | None => false
  end.

Definition os_path_isdir (p : string) : Py bool :=
  gets (fun w => isdir (fs w) p).

(** [os.makedirs(name)]: the ancestors that are missing are created first,
    then the directory itself. *)
Fixpoint makedirs_from (fuel : nat) (name : string) (now : float)
    (f : gmap string node) : gmap string node :=
  let head := posixpath.dirname name in
  let f1 :=
    match fuel with
    | S fuel' =>
        if negb (String.length head =? 0)%nat && negb (String.eqb head name)
           && negb (present f head)
        then makedirs_from fuel' head now f
        else f
    | O => f
    end in
  match f1 !! name with
  | Some _ => f1
  | None => <[name := Dir now]> f1
  end.

Definition os_makedirs (name : string) : Py unit :=
  modify (fun w =>
    with_fs (makedirs_from (String.length name) name (clock w) (fs w)) w).

(** [os.stat(p).st_mtime]. *)
Definition os_stat_st_mtime (p : option string) : Py float :=
  match p with
  | None => raise TypeError
  | Some p =>
      fun w =>
        match fs w !! p with
        | Some n => (Ok (st_mtime n), w)
        | None => (Raise FileNotFoundError, w)
        end
  end.

(** [open(p, "w")] or [open(p, "wb")], [write] and [close]: the file holds
    [data] afterwards and is stamped with the current time. *)
Definition write_file (p : option string) (data : list Byte.byte) : Py unit :=
  match p with
  | None => raise TypeError
  | Some p => modify (fun w => with_fs (<[p := File data (clock w)]> (fs w)) w)
  end.

Definition time_time : Py float := gets clock.

(** [urllib.request.urlopen(req)] followed by [data.read()]: one request
    reaches the network. *)
Definition urlopen_read (url : string) : Py http_outcome :=
  fun w => (Ok (server w url), with_request url w).

Definition install_opener (proxy : option string) : Py unit :=
  modify (with_opener proxy).

Definition queue_draw : Py unit := modify with_redraw.

(** ** Positions and the math module *)

(** Modelled from the spec: [Map.Position] (module [d_rats.map], not part
    of these sources) is "(latitude, longitude) in degrees"; its
    constructor stores the two floats it is given. *)
Record Position := {
  latitude : float;
  longitude : float
}.

(** The functions of Python's [math] module that [deg2num] and [num2deg]
    call and that the platform's C library computes.  Each may raise
    ([ValueError] for a domain error, [OverflowError] for a range error). *)
Record MathModule := {
  math_tan : float -> result float;
  math_cos : float -> result float;
  math_log : float -> result float;
  math_atan : float -> result float;
  math_sinh : float -> result float
}.

(** ** class MapTile *)

Record MapTile := {
  position : Position;
  x_tile : Z;
  y_tile : Z;
  tile_position : Position
}.


Definition set_connected (connected : bool) : Py unit :=
  modify (fun w =>
    let c := cls w in
    with_cls {| _base_dir := _base_dir c; _connected := connected;
                _map_key := _map_key c; _map_url_key := _map_url_key c;
                _map_url := _map_url c; _proxy := _proxy c;
                _tile_lifetime := _tile_lifetime c; _zoom := _zoom c;
                _map_widget := _map_widget c |} w).

Definition set_map_info (base_dir map_url : string)
    (map_url_key : option string) : Py unit :=
  let* d := os_path_isdir base_dir in
  let* _ := if negb d then os_makedirs base_dir else ret tt in
  modify (fun w =>
    let c := cls w in
    with_cls {| _base_dir := Some base_dir; _connected := _connected c;
                _map_key := map_url_key; _map_url_key := _map_url_key c;
                _map_url := Some map_url; _proxy := _proxy c;
                _tile_lifetime := _tile_lifetime c; _zoom := _zoom c;
                _map_widget := _map_widget c |} w).

Definition set_map_widget (map_widget : option MapWidget) : Py unit :=
  modify (fun w =>
    let c := cls w in
    with_cls {| _base_dir := _base_dir c; _connected := _connected c;
                _map_key := _map_key c; _map_url_key := _map_url_key c;
                _map_url := _map_url c; _proxy := _proxy c;
                _tile_lifetime := _tile_lifetime c; _zoom := _zoom c;
                _map_widget := map_widget |} w).

Definition set_proxy (proxy : option string) : Py unit :=
  modify (fun w =>
    let c := cls w in
    with_cls {| _base_dir := _base_dir c; _connected := _connected c;
                _map_key := _map_key c; _map_url_key := _map_url_key c;
                _map_url := _map_url c; _proxy := proxy;
                _tile_lifetime := _tile_lifetime c; _zoom := _zoom c;
                _map_widget := _map_widget c |} w).

Definition set_tile_lifetime (lifetime : Z) : Py unit :=
  modify (fun w =>
    let c := cls w in
    with_cls {| _base_dir := _base_dir c; _connected := _connected c;
                _map_key := _map_key c; _map_url_key := _map_url_key c;
                _map_url := _map_url c; _proxy := _proxy c;
                _tile_lifetime := lifetime; _zoom := _zoom c;
                _map_widget := _map_widget c |} w).

Definition set_zoom (zoom : Z) : Py unit :=
  modify (fun w =>
    let c := cls w in
    with_cls {| _base_dir := _base_dir c; _connected := _connected c;
                _map_key := _map_key c; _map_url_key := _map_url_key c;
                _map_url := _map_url c; _proxy := _proxy c;
                _tile_lifetime := _tile_lifetime c; _zoom := zoom;
                _map_widget := _map_widget c |} w).

(** *** Tile arithmetic; [zoom] is the class attribute [_zoom] *)

(** The x index: [int((position.longitude + 180.0) / 360.0 * num)]. *)
Definition deg2num_xtile (num lon : float) : result Z :=
  let? q := div (add lon (of_int 180)) (of_int 360) in
  to_int (mul q num).

(** The y index:
    [int((1.0 - math.log(math.tan(lat_rad) + (1 / math.cos(lat_rad)))
               / math.pi) / 2.0 * num)]. *)
Definition deg2num_ytile (M : MathModule) (num lat_rad : float) : result Z :=
  let? t := math_tan M lat_rad in
  let? c := math_cos M lat_rad in
  let? sec := div (of_int 1) c in
  let? l := math_log M (add t sec) in
  let? q := div l pi in
  let? h := div (sub (of_int 1) q) (of_int 2) in
  to_int (mul h num).

Definition deg2num (M : MathModule) (zoom : Z) (position : Position)
    : result (Z * Z) :=
  let lat_rad := radians (latitude position) in
  let? num := pow2 zoom in
  let? xtile := deg2num_xtile num (longitude position) in
  let? ytile := deg2num_ytile M num lat_rad in
  Ok (xtile, ytile).

(** [xtile / num * 360.0 - 180.0]. *)
Definition num2deg_lon (num : float) (xtile : Z) : result float :=
  let? q := div (of_int xtile) num in
  Ok (sub (mul q (of_int 360)) (of_int 180)).

(** [math.degrees(math.atan(math.sinh(math.pi * (1 - 2 * ytile / num))))]. *)
Definition num2deg_lat (M : MathModule) (num : float) (ytile : Z)
    : result float :=
  let? q := div (of_int (2 * ytile)) num in
  let? s := math_sinh M (mul pi (sub (of_int 1) q)) in
  let? lat_rad := math_atan M s in
  Ok (degrees lat_rad).

Definition num2deg (M : MathModule) (zoom : Z) (xtile ytile : Z)
    : result Position :=
  let? num := pow2 zoom in
  let? lon_deg := num2deg_lon num xtile in
  let? lat_deg := num2deg_lat M num ytile in
  Ok {| latitude := lat_deg; longitude := lon_deg |}.

(** [MapTile(position=...)] when [Some], [MapTile(x_axis=..., y_axis=...)]
    otherwise. *)
Definition MapTile__init__ (M : MathModule) (zoom : Z)
    (position : option Position) (x_axis y_axis : Z) : result MapTile :=
  match position with
  | Some position =>
      let? (x, y) := deg2num M zoom position in
      let? tile_position := num2deg M zoom x y in
      Ok {| position := position; x_tile := x; y_tile := y;
            tile_position := tile_position |}
  | None =>
      let? position := num2deg M zoom x_axis y_axis in
      let? (x, y) := deg2num M zoom position in
      Ok {| position := position; x_tile := x; y_tile := y;
            tile_position := position |}
  end.

Definition path_els (M : MathModule) (zoom : Z) (self : MapTile)
    : result (Z * Z) :=
  deg2num M zoom (position self).

(** [(southeast.latitude, northwest.longitude,
      northwest.latitude, southeast.longitude)]. *)
Definition tile_edges (M : MathModule) (zoom : Z) (self : MapTile)
    : result (float * float * float * float) :=
  let? northwest := num2deg M zoom (x_tile self) (y_tile self) in
  let? southeast := num2deg M zoom (x_tile self + 1) (y_tile self + 1) in
  Ok (latitude southeast, longitude northwest,
      latitude northwest, longitude southeast).

(** [point in tile]. *)
Definition MapTile__contains__ (M : MathModule) (zoom : Z) (self : MapTile)
    (point : Position) : result bool :=
  let? (lat_min, lon_min, lat_max, lon_max) := tile_edges M zoom self in
  let lat_match := ltb lat_min (latitude point) && ltb (latitude point) lat_max in
  let lon_match := ltb lon_min (longitude point) && ltb (longitude point) lon_max in
  Ok (lat_match && lon_match).

(** *** The tile cache *)

(** ["%d" % n]. *)
Definition fmt_d (n : Z) : string := NilZero.string_of_int (Z.to_int n).

Definition tile_stem (zoom : Z) (self : MapTile) : string :=
  fmt_d zoom +:+ "/" +:+ fmt_d (x_tile self) +:+ "/" +:+ fmt_d (y_tile self).

(** ["%d/%d/%d.png" % (self._zoom, self.x_tile, self.y_tile)]. *)
Definition path (self : MapTile) : Py string :=
  gets (fun w => tile_stem (_zoom (cls w)) self +:+ ".png").

(** ["%d/%d/%d.bad" % (self._zoom, self.x_tile, self.y_tile)]. *)
Definition bad_path (self : MapTile) : Py string :=
  gets (fun w => tile_stem (_zoom (cls w)) self +:+ ".bad").

(** The common body of [_local_path] and [_local_bad_path]. *)
Definition local_file (relative : Py string) : Py (option string) :=
  let* base := gets (fun w => _base_dir (cls w)) in
  match base with
  | Some base_dir =>
      if negb (truthy (Some base_dir)) then ret None else
      let* rel := relative in
      let path := posixpath.join base_dir rel in
      let* d := os_path_isdir (posixpath.dirname path) in
      let* _ := if negb d then os_makedirs (posixpath.dirname path)
                else ret tt in
      ret (Some path)
  | None => ret None
  end.

Definition _local_path (self : MapTile) : Py (option string) :=
  local_file (path self).

Definition _local_bad_path (self : MapTile) : Py (option string) :=
  local_file (bad_path self).

Definition get_local_tile_path (self : MapTile) : Py (option string) :=
  let* local_cache := _local_path self in
  let* again := _local_path self in
  let* found := os_path_exists again in
  if found then ret local_cache else ret None.

Definition is_local (self : MapTile) : Py bool :=
  let* local_cache := _local_path self in
  let* local := os_path_exists local_cache in
  let* (local_cache, local) :=
    if negb local then
      let* local_cache := _local_bad_path self in
      let* local := os_path_exists local_cache in
      ret (local_cache, local)
    else ret (local_cache, local) in
  if negb local then ret false else
  let* c := gets cls in
  if (_tile_lifetime c =? 0) || negb (_connected c) then ret local else
  let* time_stamp := os_stat_st_mtime local_cache in
  let* now := time_time in
  ret (lt_int (sub now time_stamp) (_tile_lifetime c)).

(** *** Fetching *)

Definition remote_path (self : MapTile) : Py string :=
  let* c := gets cls in
  match _map_url c with
  | None => raise AttributeError
  | Some map_url =>
      let* rel := path self in
      let remote_path := map_url +:+ rel in
      match _map_url_key c with
      | Some key =>
          if truthy (Some key) then ret (remote_path +:+ key)
          else ret remote_path
      | None => ret remote_path
      end
  end.

Definition fetch_url (self : MapTile) (url : string) (local : option string)
    : Py bool :=
  let* c := gets cls in
  if negb (_connected c) then raise (MapNotConnected "Not connected") else
  let* _ := if truthy (_proxy c) then install_opener (_proxy c)
            else ret tt in
  let* answer := urlopen_read url in
  match answer with
  | HTTPError code =>
      if code =? 404 then raise (MapTileNotFound "404 error code")
      else raise (MapFetchError code)
  | NoAnswer why => raise (TransportError why)
  | Response read_data =>
      let* _ := write_file local read_data in
      ret true
  end.

(** A [for] loop whose body may [return]. *)
Inductive flow (A : Type) :=
| Continue
| Return (a : A).
Arguments Continue {A}.
Arguments Return {A} a.

Fixpoint for_in {I A} (items : list I) (body : I -> Py (flow A))
    : Py (option A) :=
  match items with
  | [] => ret None
  | i :: rest =>
      let* f := body i in
      match f with
      | Return a => ret (Some a)
      | Continue => for_in rest body
      end
  end.

Definition range (n : nat) : list Z := map Z.of_nat (seq 0 n).

(** The [try] block in the loop of [fetch]; it ends in [return True]. *)
Definition fetch_try (self : MapTile) (url : string) : Py (flow bool) :=
  let* local := _local_path self in
  let* _ := fetch_url self url local in
  let* c := gets cls in
  let* _ := match _map_widget c with
            | Some _ => queue_draw
            | None => ret tt
            end in
  ret (Return true).

(** [except MapTileNotFound:] the empty bad marker is created
    ([_local_bad_path] is called once for the log line, once for [open]). *)
Definition except_MapTileNotFound (self : MapTile) : Py (flow bool) :=
  let* _ := _local_bad_path self in
  let* bad := _local_bad_path self in
  let* _ := write_file bad [] in
  ret Continue.

(** The [except] clauses, in their order; [None] when none matches. *)
Definition fetch_except (self : MapTile) (e : exn) : option (Py (flow bool)) :=
  if isinstance_MapTileNotFound e then Some (except_MapTileNotFound self)
  else if isinstance_MapFetchUrlException e then Some (ret Continue)
  else None.

(** The body of the loop of [fetch].  The [try] statement either returns
    [True] or, after a handled exception, falls through to [return False]. *)
Definition fetch_attempt (self : MapTile) (tile_num : Z) : Py (flow bool) :=
  let* url := remote_path self in
  let* tried := try_except (fetch_try self url) (fetch_except self) in
  match tried with
  | Return b => ret (Return b)
  | Continue => ret (Return false)
  end.

(** [fetch] with [range(attempts)] in place of [range(10)]; the result is
    [None] when the loop ends without a [return]. *)
Definition fetch_upto (attempts : nat) (self : MapTile) : Py (option bool) :=
  let* local := is_local self in
  if local then ret (Some true)
  else for_in (range attempts) (fetch_attempt self).

Definition fetch (self : MapTile) : Py (option bool) := fetch_upto 10 self.

Definition local_path (self : MapTile) : Py (option string) :=
  let* path := _local_path self in
  let* _ := fetch self in
  ret path.


(** ** Names used to state the facts *)

(** The name of the tile's cache file ([ext] is [".png"]) or of its bad
    marker ([ext] is [".bad"]) below the directory [base]:
    [os.path.join(self._base_dir, self.path())], respectively
    [os.path.join(self._base_dir, self.bad_path())]. *)
Definition local_name (ext base : string) (zoom : Z) (self : MapTile) : string :=
  posixpath.join base (tile_stem zoom self +:+ ext).

(** The test at the end of [is_local], for the file [n] it has found. *)
Definition not_expired (w : World) (n : node) : bool :=
  if (_tile_lifetime (cls w) =? 0) || negb (_connected (cls w)) then true
  else lt_int (sub (clock w) (st_mtime n)) (_tile_lifetime (cls w)).

(** [m] leaves the observation [proj] of the world as it found it. *)
Definition keeps {B A} (proj : World -> B) (m : Py A) : Prop :=
  forall w, proj (snd (m w)) = proj w.

(** [m] sends at most [n] requests to the network. *)
Definition sends_at_most {A} (n : nat) (m : Py A) : Prop :=
  forall w, exists l,
    requests (snd (m w)) = (l ++ requests w)%list /\ (length l <= n)%nat.

(** ** Concrete worlds *)

Definition exec {A} (m : Py A) (w : World) : World := snd (m w).

(** A process that has just imported the module: the class is as its body
    defines it, the disk holds no tile, nothing was requested yet. *)
Definition fresh_world (srv : string -> http_outcome) : World := {|
  cls := MapTile_class_body;
  fs := ∅;
  clock := of_int 0;
  server := srv;
  requests := [];
  opener_proxy := None;
  redraws := 0
|}.

(** The application sets the tile source up, at zoom 3. *)
Definition configured (connected : bool) (lifetime : Z) (key : option string)
    (srv : string -> http_outcome) : World :=
  exec (let* _ := set_map_info "/maps" "http://tiles.example/" key in
        let* _ := set_zoom 3 in
        let* _ := set_connected connected in
        set_tile_lifetime lifetime)
       (fresh_world srv).

Definition at_time (seconds : Z) (w : World) : World :=
  with_clock (of_int seconds) w.

Definition with_file (name : string) (n : node) (w : World) : World :=
  with_fs (<[name := n]> (fs w)) w.

Definition origin : Position :=
  {| latitude := S754_zero false; longitude := S754_zero false |}.

(** The tile (4, 4) of zoom 3, whose north-west corner is the origin. *)
Definition tile_4_4 : MapTile :=
  {| position := origin; x_tile := 4; y_tile := 4; tile_position := origin |}.

Definition always (o : http_outcome) : string -> http_outcome := fun _ => o.

(** The world once [fetch_url] has sent its request for [url]: the opener
    is installed when a proxy is set, and the request is on record. *)
Definition after_request (url : string) (w : World) : World :=
  with_request url
    (if truthy (_proxy (cls w)) then with_opener (_proxy (cls w)) w else w).

(** The names of tile (4, 4) of zoom 3 in the configured worlds. *)
Definition tile_4_4_url : string := "http://tiles.example/3/4/4.png".
Definition tile_4_4_file : string := "/maps/3/4/4.png".
Definition tile_4_4_marker : string := "/maps/3/4/4.bad".

(** Connected, tiles live 60 seconds, the server knows no tile. *)
Definition no_such_tile : World :=
  configured true 60 None (always (HTTPError 404)).

(** The same, one hundred seconds after a tile file was stored. *)
Definition stale_tile : World :=
  at_time 100 (with_file tile_4_4_file (File [] (of_int 0)) no_such_tile).

(** The same, sixty-one seconds after a bad marker was stored. *)
Definition old_marker : World :=
  at_time 61 (with_file tile_4_4_marker (File [] (of_int 0)) no_such_tile).

(** Connected, but the name of the tile server does not resolve. *)
Definition no_dns : World :=
  configured true 0 None (always (NoAnswer DNSFailure)).

(** An access key was given to [set_map_info]. *)
Definition with_access_key : World :=
  configured true 0 (Some "?apikey=secret") (always (Response [])).

(** A math module of low-order Taylor polynomials, evaluated in binary64.
    It only serves to run the tile arithmetic on concrete inputs; it
    returns the exact values at the origin (tan 0 = 0, cos 0 = 1,
    log 1 = 0, atan 0 = 0, sinh 0 = 0). *)
Definition cube (x : float) : float := mul x (mul x x).

Definition taylor_math : MathModule := {|
  math_tan := fun x => Ok (add x (SFdiv prec emax (cube x) (of_int 3)));
  math_cos := fun x => Ok (sub (of_int 1) (SFdiv prec emax (mul x x) (of_int 2)));
  math_log := fun y =>
    let h := sub y (of_int 1) in
    Ok (sub h (SFdiv prec emax (mul h h) (of_int 2)));
  math_atan := fun x => Ok (sub x (SFdiv prec emax (cube x) (of_int 3)));
  math_sinh := fun x => Ok (add x (SFdiv prec emax (cube x) (of_int 6)))
|}.

(** ** The math library at tile (0, 1) of zoom 2

    The five results of the C library that [num2deg] and then [deg2num]
    need for tile (0, 1) of zoom 2, as CPython returns them with the GNU C
    library on x86-64 (each is within one unit in the last place of the
    exact value). *)
Definition arg_sinh : float := S754_finite false 7074237752028440 (-52).
Definition val_sinh : float := S754_finite false 5182064439449632 (-51).
Definition val_atan : float := S754_finite false 5228117978190687 (-52).
Definition val_tan : float := S754_finite false 5182064439449633 (-51).
Definition val_cos : float := S754_finite false 7179401012205529 (-54).
Definition arg_log : float := S754_finite false 5416116035097440 (-50).
Definition val_log : float := S754_finite false 7074237752028441 (-52).

Definition returns_sampled_values (M : MathModule) : Prop :=
  math_sinh M arg_sinh = Ok val_sinh
  /\ math_atan M val_sinh = Ok val_atan
  /\ math_tan M val_atan = Ok val_tan
  /\ math_cos M val_atan = Ok val_cos
  /\ math_log M arg_log = Ok val_log.

Definition float_eqb (x y : float) : bool :=
  match x, y with
  | S754_zero s, S754_zero s' => Bool.eqb s s'
  | S754_infinity s, S754_infinity s' => Bool.eqb s s'
  | S754_nan, S754_nan => true
  | S754_finite s m e, S754_finite s' m' e' =>
      Bool.eqb s s' && Pos.eqb m m' && Z.eqb e e'
  | _, _ => false
  end.

(** The math module that knows those five values and nothing else. *)
Definition sampled_math : MathModule := {|
  math_tan := fun x => if float_eqb x val_atan then Ok val_tan else Raise ValueError;
  math_cos := fun x => if float_eqb x val_atan then Ok val_cos else Raise ValueError;
  math_log := fun x => if float_eqb x arg_log then Ok val_log else Raise ValueError;
  math_atan := fun x => if float_eqb x val_sinh then Ok val_atan else Raise ValueError;
  math_sinh := fun x => if float_eqb x arg_sinh then Ok val_sinh else Raise ValueError
|}.

(** ** The remaining methods *)

(** [self + (x_axis, y_axis)]: a tile built from the shifted indices. *)
Definition MapTile__add__ (M : MathModule) (zoom : Z) (self : MapTile)
    (count : Z * Z) : result MapTile :=
  let (x_axis, y_axis) := count in
  MapTile__init__ M zoom None (x_tile self + x_axis) (y_tile self + y_axis).

(** [self - tile]. *)
Definition MapTile__sub__ (self tile : MapTile) : Z * Z :=
  (x_tile self - x_tile tile, y_tile self - y_tile tile).

(** The target of the thread that [threaded_fetch] starts.  [idle_add] is
    [GLib.idle_add(callback, fname, *args)] for the callback and the extra
    arguments at hand: GLib is outside these sources, so it is a parameter
    that receives [fname].  [if self.fetch():] takes [True] only ([False]
    and [None] are false). *)
Definition _thread (idle_add : option string -> Py unit) (self : MapTile)
    : Py unit :=
  let* fetched := fetch self in
  let* fname :=
    match fetched with
    | Some true => _local_path self
    | _ => ret None
    end in
  idle_add fname.

(** ** More names used to state the facts *)

(** [f'] is [f] with some directories added. *)
Definition more_directories (f f' : gmap string node) : Prop :=
  (forall p n, f !! p = Some n -> f' !! p = Some n)
  /\ (forall p n, f' !! p = Some n -> f !! p = Some n \/ is_dir n = true).

(** [m] changes no entry of the file system that is already there, and
    adds directories only. *)
Definition only_adds {A} (m : Py A) : Prop :=
  forall w, more_directories (fs w) (fs (snd (m w))).


(** The x index of column [x] at [zoom] comes back from its longitude. *)
Definition xtile_comes_back (zoom x : Z) : bool :=
  match (let? num := pow2 zoom in
         let? lon := num2deg_lon num x in
         deg2num_xtile num lon) with
  | Ok x' => x' =? x
  | Raise _ => false
  end.

(** ... for every column of the grid at [zoom]. *)
Definition columns_come_back (zoom : nat) : bool :=
  forallb (fun x => xtile_comes_back (Z.of_nat zoom) (Z.of_nat x))
          (seq 0 (2 ^ zoom)).

(** The x index that [deg2num] gives the longitude [lon] degrees at [zoom]
    is [expected zoom]. *)
Definition xtile_at (lon : Z) (expected : Z -> Z) (zoom : nat) : bool :=
  match (let? num := pow2 (Z.of_nat zoom) in
         deg2num_xtile num (of_int lon)) with
  | Ok x => x =? expected (Z.of_nat zoom)
  | Raise _ => false
  end.

(** The characters of ["%d" % n]. *)
Definition is_num_char (c : ascii) : bool :=
  match c with
  | "0" | "1" | "2" | "3" | "4" | "5" | "6" | "7" | "8" | "9" | "-" => true
  | _ => false
  end%char.

Definition all_num_chars (s : string) : Prop :=
  forallb is_num_char (list_ascii_of_string s) = true.

(** What [os.path.join] puts in front of a relative path. *)
Definition join_prefix (a : string) : string :=
  if (String.length a =? 0)%nat || posixpath.endswith_sep a then a
  else a +:+ "/".

(** A call of one of the methods of [MapTile] that the application makes:
    the class methods that configure, and the instance methods of the
    cache. *)
Inductive call :=
| call_set_connected (connected : bool)
| call_set_map_info (base_dir map_url : string) (map_url_key : option string)
| call_set_map_widget (map_widget : option MapWidget)
| call_set_proxy (proxy : option string)
| call_set_tile_lifetime (lifetime : Z)
| call_set_zoom (zoom : Z)
| call_is_local (self : MapTile)
| call_get_local_tile_path (self : MapTile)
| call_fetch (self : MapTile)
| call_local_path (self : MapTile).

(** The world after a call, whether it returned or raised. *)
Definition after_call (c : call) (w : World) : World :=
  match c with
  | call_set_connected b => exec (set_connected b) w
  | call_set_map_info b u k => exec (set_map_info b u k) w
  | call_set_map_widget m => exec (set_map_widget m) w
  | call_set_proxy p => exec (set_proxy p) w
  | call_set_tile_lifetime l => exec (set_tile_lifetime l) w
  | call_set_zoom z => exec (set_zoom z) w
  | call_is_local t => exec (is_local t) w
  | call_get_local_tile_path t => exec (get_local_tile_path t) w
  | call_fetch t => exec (fetch t) w
  | call_local_path t => exec (local_path t) w
  end.

Definition after_calls (cs : list call) (w : World) : World :=
  fold_left (fun w c => after_call c w) cs w.

(** * Facts *)

(** ** Floats *)

Lemma compare_cont_refl (m : positive) : Pos.compare_cont Eq m m = Eq.
Proof. change (Pos.compare m m = Eq). apply Pos.compare_refl. Qed.

(** [<] on floats is irreflexive, NaN included. *)
Lemma ltb_irrefl (x : float) : ltb x x = false.
Proof.
  unfold ltb, SFltb.
  destruct x as [s | s | | s m e]; simpl;
    try reflexivity; try (destruct s; reflexivity).
  rewrite Z.compare_refl.
  change (PosDef.Pos.compare_cont Eq m m) with (Pos.compare_cont Eq m m).
  rewrite compare_cont_refl. destruct s; reflexivity.
Qed.

(** ** Strings and paths *)

Section PathFacts.

Import posixpath.

Lemma chars_length (s : string) :
  length (list_ascii_of_string s) = String.length s.
Proof. induction s as [|c s IH]; simpl; [reflexivity | now rewrite IH]. Qed.

Lemma append_cons (c : ascii) (a b : string) :
  String c a +:+ b = String c (a +:+ b).
Proof. reflexivity. Qed.

Lemma chars_app (a b : string) :
  list_ascii_of_string (a +:+ b)
  = (list_ascii_of_string a ++ list_ascii_of_string b)%list.
Proof.
  induction a as [|c a IH]; [reflexivity |].
  rewrite append_cons. simpl. now rewrite IH.
Qed.

Lemma of_chars_length (l : list ascii) :
  String.length (string_of_list_ascii l) = length l.
Proof. induction l as [|c l IH]; simpl; [reflexivity | now rewrite IH]. Qed.

Lemma append_length (a b : string) :
  String.length (a +:+ b) = (String.length a + String.length b)%nat.
Proof.
  induction a as [|c a IH]; [reflexivity |].
  rewrite append_cons. simpl. now rewrite IH.
Qed.

Lemma append_assoc (a b c : string) : (a +:+ b) +:+ c = a +:+ b +:+ c.
Proof.
  induction a as [|x a IH]; [reflexivity |].
  rewrite !append_cons. now rewrite IH.
Qed.

Lemma drop_while_length {A} (f : A -> bool) (l : list A) :
  (length (drop_while f l) <= length l)%nat.
Proof.
  induction l as [|a l IH]; simpl; [lia |].
  destruct (f a); simpl; lia.
Qed.

Lemma dirname_length (p : string) :
  (String.length (dirname p) <= String.length p)%nat.
Proof.
  unfold dirname. rewrite of_chars_length, length_rev.
  set (head := drop_while _ _).
  assert (length head <= String.length p)%nat as Hh.
  { subst head. etransitivity; [apply drop_while_length |].
    now rewrite length_rev, chars_length. }
  destruct (forallb is_sep head); [exact Hh |].
  etransitivity; [apply drop_while_length | exact Hh].
Qed.

(** A path that ends in a character other than the separator is strictly
    longer than its directory. *)
Lemma dirname_shorter (q : string) (c : ascii) :
  is_sep c = false ->
  (String.length (dirname (q +:+ String c "")) < String.length (q +:+ String c ""))%nat.
Proof.
  intros Hc. unfold dirname.
  rewrite of_chars_length, length_rev, chars_app, rev_app_distr. simpl.
  rewrite Hc. simpl.
  set (head := drop_while _ _).
  assert (length head <= String.length q)%nat as Hh.
  { subst head. etransitivity; [apply drop_while_length |].
    now rewrite length_rev, chars_length. }
  rewrite append_length. simpl.
  destruct (forallb is_sep head); [lia |].
  pose proof (drop_while_length is_sep head). lia.
Qed.

Lemma join_append (a s e : string) :
  s <> "" -> join a (s +:+ e) = join a s +:+ e.
Proof.
  intros Hs. destruct s as [|c s]; [congruence |].
  unfold join. simpl startswith_sep.
  destruct (is_sep c); [reflexivity |].
  destruct ((String.length a =? 0)%nat || endswith_sep a).
  - now rewrite append_assoc.
  - now rewrite !append_assoc.
Qed.

Lemma fmt_d_nonempty (n : Z) : fmt_d n <> "".
Proof.
  unfold fmt_d.
  destruct (Z.to_int n) as [d | d]; simpl; [| discriminate].
  destruct d; discriminate.
Qed.

Lemma tile_stem_nonempty (zoom : Z) (self : MapTile) : tile_stem zoom self <> "".
Proof.
  unfold tile_stem. pose proof (fmt_d_nonempty zoom) as H.
  destruct (fmt_d zoom); [congruence | discriminate].
Qed.

End PathFacts.

(** ** Running a computation *)

Lemma bind_ok {A B} (m : Py A) (k : A -> Py B) w a w' :
  m w = (Ok a, w') -> bind m k w = k a w'.
Proof. intros H. unfold bind. now rewrite H. Qed.

Lemma bind_raise {A B} (m : Py A) (k : A -> Py B) w e w' :
  m w = (Raise e, w') -> bind m k w = (Raise e, w').
Proof. intros H. unfold bind. now rewrite H. Qed.

Lemma with_fs_with_fs f g w : with_fs f (with_fs g w) = with_fs f w.
Proof. reflexivity. Qed.

Lemma with_fs_id w : with_fs (fs w) w = w.
Proof. now destruct w. Qed.

Lemma fs_with_fs f w : fs (with_fs f w) = f.
Proof. reflexivity. Qed.

Lemma cls_with_fs f w : cls (with_fs f w) = cls w.
Proof. reflexivity. Qed.

Lemma clock_with_fs f w : clock (with_fs f w) = clock w.
Proof. reflexivity. Qed.

Lemma requests_with_fs f w : requests (with_fs f w) = requests w.
Proof. reflexivity. Qed.

Lemma server_with_fs f w : server (with_fs f w) = server w.
Proof. reflexivity. Qed.

Create Rewrite HintDb world.
#[local] Hint Rewrite fs_with_fs cls_with_fs clock_with_fs requests_with_fs
  server_with_fs with_fs_with_fs : world.

(** ** The file system *)

(** [os.makedirs] touches no name longer than the directory it creates. *)
Lemma makedirs_from_longer fuel : forall name now (f : gmap string node) p,
  (String.length name < String.length p)%nat ->
  makedirs_from fuel name now f !! p = f !! p.
Proof.
  induction fuel as [|fuel IH]; intros name now f p Hlen; simpl.
  - destruct (f !! name); [reflexivity |].
    apply lookup_insert_ne. intros ->. lia.
  - pose proof (dirname_length name) as Hd.
    match goal with
    | |- context [if ?c then ?a else f] => set (f1 := if c then a else f)
    end.
    assert (f1 !! p = f !! p) as H1.
    { subst f1. destruct (_ && _); [| reflexivity]. apply IH. lia. }
    destruct (f1 !! name); [exact H1 |].
    rewrite lookup_insert_ne; [exact H1 |]. intros ->. lia.
Qed.

Section CacheFiles.

Variables (self : MapTile) (base : string).
Hypothesis base_nonempty : base <> "".

(** [_local_path] and [_local_bad_path] return the file's name and only
    create directories: no name as long as the file's is touched. *)
Lemma local_file_eval (e : string) (c : ascii) (w : World) :
  posixpath.is_sep c = false ->
  _base_dir (cls w) = Some base ->
  let ext := e +:+ String c "" in
  let name := local_name ext base (_zoom (cls w)) self in
  exists f',
    local_file (gets (fun w => tile_stem (_zoom (cls w)) self +:+ ext)) w
    = (Ok (Some name), with_fs f' w)
    /\ forall p, (String.length name <= String.length p)%nat ->
                 f' !! p = fs w !! p.
Proof.
  intros Hc Hb ext name.
  assert (String.length (posixpath.dirname name) < String.length name)%nat as Hlt.
  { subst name ext. unfold local_name.
    rewrite <- append_assoc.
    rewrite join_append.
    2:{ pose proof (tile_stem_nonempty (_zoom (cls w)) self) as Hs.
        destruct (tile_stem _ _); [congruence | discriminate]. }
    now apply dirname_shorter. }
  assert (truthy (Some base) = true) as Ht.
  { destruct base; [congruence | reflexivity]. }
  unfold local_file, bind, gets, os_path_isdir, ret. cbv beta iota.
  rewrite Hb. cbv beta iota. rewrite Ht.
  simpl. fold ext. fold (local_name ext base (_zoom (cls w)) self). fold name.
  destruct (isdir (fs w) (posixpath.dirname name)); simpl.
  - exists (fs w). rewrite with_fs_id. split; [reflexivity | reflexivity].
  - eexists. split; [reflexivity |].
    intros p Hp. apply makedirs_from_longer. lia.
Qed.

End CacheFiles.

Section CacheLookup.

Variables (self : MapTile) (base : string).
Hypothesis base_nonempty : base <> "".

Lemma local_name_length (ext : string) (zoom : Z) :
  String.length (local_name ext base zoom self)
  = (String.length (posixpath.join base (tile_stem zoom self))
     + String.length ext)%nat.
Proof.
  unfold local_name.
  rewrite join_append by apply tile_stem_nonempty.
  apply append_length.
Qed.

Lemma _local_path_eval (w : World) :
  _base_dir (cls w) = Some base ->
  let name := local_name ".png" base (_zoom (cls w)) self in
  exists f',
    _local_path self w = (Ok (Some name), with_fs f' w)
    /\ forall p, (String.length name <= String.length p)%nat ->
                 f' !! p = fs w !! p.
Proof.
  intros Hb.
  exact (local_file_eval self base base_nonempty ".pn" "g"%char w eq_refl Hb).
Qed.

Lemma _local_bad_path_eval (w : World) :
  _base_dir (cls w) = Some base ->
  let name := local_name ".bad" base (_zoom (cls w)) self in
  exists f',
    _local_bad_path self w = (Ok (Some name), with_fs f' w)
    /\ forall p, (String.length name <= String.length p)%nat ->
                 f' !! p = fs w !! p.
Proof.
  intros Hb.
  exact (local_file_eval self base base_nonempty ".ba" "d"%char w eq_refl Hb).
Qed.

(** The tile file and the bad marker have different names. *)
Lemma local_names_differ (zoom : Z) :
  local_name ".png" base zoom self <> local_name ".bad" base zoom self.
Proof.
  unfold local_name.
  rewrite !join_append by apply tile_stem_nonempty.
  intros H. apply String.app_inj in H. discriminate.
Qed.

(** What [is_local] answers, and what it leaves behind: the files found,
    if any, decide; only directories may have been created. *)
Lemma is_local_eval (w : World) :
  _base_dir (cls w) = Some base ->
  let tile := local_name ".png" base (_zoom (cls w)) self in
  let bad := local_name ".bad" base (_zoom (cls w)) self in
  exists f',
    is_local self w
    = (Ok match fs w !! tile with
          | Some n => not_expired w n
          | None =>
              match fs w !! bad with
              | Some n => not_expired w n
              | None => false
              end
          end, with_fs f' w)
    /\ forall p, (String.length tile <= String.length p)%nat ->
                 f' !! p = fs w !! p.
Proof.
  intros Hb tile bad.
  assert (String.length bad = String.length tile) as Hlen.
  { subst tile bad. now rewrite !local_name_length. }
  destruct (_local_path_eval w Hb) as (f1 & E1 & L1). fold tile in E1, L1.
  unfold is_local. rewrite (bind_ok _ _ _ _ _ E1).
  unfold os_path_exists at 1. unfold bind at 1, gets at 1. simpl fs.
  unfold present. rewrite (L1 tile) by lia.
  destruct (fs w !! tile) as [n|] eqn:Etile; simpl negb; cbv iota.
  - unfold bind at 1, ret at 1. cbv iota beta. simpl negb. cbv iota.
    exists f1. split; [| exact L1].
    unfold bind, gets, ret, os_stat_st_mtime, time_time, not_expired. simpl.
    destruct ((_tile_lifetime (cls w) =? 0) || negb (_connected (cls w)));
      [reflexivity |].
    autorewrite with world.
    rewrite (L1 tile) by lia. rewrite Etile. reflexivity.
  - destruct (_local_bad_path_eval (with_fs f1 w) Hb) as (f2 & E2 & L2).
    simpl in E2, L2. fold bad in E2, L2.
    rewrite (bind_ok _ _ _ _ _ (bind_ok _ _ _ _ _ E2)).
    unfold os_path_exists, bind at 1, gets at 1. unfold present.
    autorewrite with world.
    rewrite (L2 bad) by lia. rewrite (L1 bad) by lia.
    exists f2. split; [| intros p Hp; rewrite L2, L1 by lia; reflexivity].
    destruct (fs w !! bad) as [n|] eqn:Ebad.
    + unfold bind, gets, ret, os_stat_st_mtime, time_time, not_expired. simpl.
      destruct ((_tile_lifetime (cls w) =? 0) || negb (_connected (cls w)));
        [reflexivity |].
      autorewrite with world.
      rewrite (L2 bad), (L1 bad) by lia. rewrite Ebad. reflexivity.
    + reflexivity.
Qed.

End CacheLookup.

(** ** What a computation leaves untouched *)

Section Keeps.

Context {B : Type} (proj : World -> B).

Lemma keeps_ret {A} (a : A) : keeps proj (ret a).
Proof. intros w. reflexivity. Qed.

Lemma keeps_raise {A} (e : exn) : keeps proj (@raise A e).
Proof. intros w. reflexivity. Qed.

Lemma keeps_gets {A} (f : World -> A) : keeps proj (gets f).
Proof. intros w. reflexivity. Qed.

Lemma keeps_modify (f : World -> World) :
  (forall w, proj (f w) = proj w) -> keeps proj (modify f).
Proof. intros H w. apply H. Qed.

Lemma keeps_bind {A C} (m : Py A) (k : A -> Py C) :
  keeps proj m -> (forall a, keeps proj (k a)) -> keeps proj (bind m k).
Proof.
  intros Hm Hk w. unfold bind. specialize (Hm w).
  destruct (m w) as [[a | e] w']; simpl in *.
  - now rewrite Hk.
  - exact Hm.
Qed.

Lemma keeps_try_except {A} (m : Py A) (handler : exn -> option (Py A)) :
  keeps proj m ->
  (forall e h, handler e = Some h -> keeps proj h) ->
  keeps proj (try_except m handler).
Proof.
  intros Hm Hh w. unfold try_except. specialize (Hm w).
  destruct (m w) as [[a | e] w']; simpl in *; [exact Hm |].
  destruct (handler e) as [h |] eqn:E; [| exact Hm].
  now rewrite (Hh e h E).
Qed.

End Keeps.

(** Break a computation into its steps. *)
Ltac keeps_steps :=
  repeat first
    [ apply keeps_ret | apply keeps_raise | apply keeps_gets
    | apply keeps_modify; intros; reflexivity
    | apply keeps_bind; [| intros ]
    | match goal with
      | |- keeps _ (if ?b then _ else _) => destruct b
      | |- keeps _ (match ?x with _ => _ end) => destruct x
      | |- keeps _ (let (_, _) := ?x in _) => destruct x
      end ].

Section FileSystemOnly.

Context {B : Type} (proj : World -> B).
Hypothesis proj_fs : forall f w, proj (with_fs f w) = proj w.

Lemma keeps_os_path_exists p : keeps proj (os_path_exists p).
Proof. unfold os_path_exists. keeps_steps. Qed.

Lemma keeps_os_stat_st_mtime p : keeps proj (os_stat_st_mtime p).
Proof.
  unfold os_stat_st_mtime. destruct p; [| apply keeps_raise].
  intros w. destruct (fs w !! s); reflexivity.
Qed.

Lemma keeps_write_file p data : keeps proj (write_file p data).
Proof.
  unfold write_file. destruct p; [| apply keeps_raise].
  apply keeps_modify. intros w. apply proj_fs.
Qed.

Lemma keeps_os_makedirs name : keeps proj (os_makedirs name).
Proof. apply keeps_modify. intros w. apply proj_fs. Qed.

Lemma keeps_local_file rel : keeps proj rel -> keeps proj (local_file rel).
Proof.
  intros Hrel. unfold local_file, os_path_isdir. keeps_steps; auto.
  all: apply keeps_os_makedirs.
Qed.

Lemma keeps__local_path self : keeps proj (_local_path self).
Proof. apply keeps_local_file. apply keeps_gets. Qed.

Lemma keeps__local_bad_path self : keeps proj (_local_bad_path self).
Proof. apply keeps_local_file. apply keeps_gets. Qed.

Lemma keeps_is_local self : keeps proj (is_local self).
Proof.
  unfold is_local, time_time.
  keeps_steps;
    auto using keeps__local_path, keeps__local_bad_path,
      keeps_os_path_exists, keeps_os_stat_st_mtime, keeps_os_makedirs.
Qed.

Lemma keeps_remote_path self : keeps proj (remote_path self).
Proof. unfold remote_path, path. keeps_steps. Qed.

End FileSystemOnly.

Section AllButClassAttributes.

Context {B : Type} (proj : World -> B).
Hypothesis proj_fs : forall f w, proj (with_fs f w) = proj w.
Hypothesis proj_request : forall u w, proj (with_request u w) = proj w.
Hypothesis proj_opener : forall p w, proj (with_opener p w) = proj w.
Hypothesis proj_redraw : forall w, proj (with_redraw w) = proj w.

Lemma keeps_fetch_url self url local : keeps proj (fetch_url self url local).
Proof.
  unfold fetch_url, install_opener.
  apply keeps_bind; [apply keeps_gets | intros c].
  destruct (negb (_connected c)); [apply keeps_raise |].
  apply keeps_bind.
  { destruct (truthy (_proxy c)); [| apply keeps_ret].
    apply keeps_modify. intros w. apply proj_opener. }
  intros _. apply keeps_bind.
  { intros w. apply proj_request. }
  intros [body | code | why]; keeps_steps.
  now apply keeps_write_file.
Qed.

Lemma keeps_fetch_attempt self tile_num : keeps proj (fetch_attempt self tile_num).
Proof.
  unfold fetch_attempt.
  apply keeps_bind; [now apply keeps_remote_path | intros url].
  apply keeps_bind; [| intros [|b]; apply keeps_ret].
  apply keeps_try_except.
  - unfold fetch_try.
    apply keeps_bind; [now apply keeps__local_path | intros local].
    apply keeps_bind; [apply keeps_fetch_url | intros _].
    apply keeps_bind; [apply keeps_gets | intros c].
    apply keeps_bind; [| intros _; apply keeps_ret].
    destruct (_map_widget c); [| apply keeps_ret].
    apply keeps_modify. exact proj_redraw.
  - intros e h Hh. unfold fetch_except in Hh.
    destruct (isinstance_MapTileNotFound e).
    + injection Hh as <-. unfold except_MapTileNotFound.
      apply keeps_bind; [now apply keeps__local_bad_path | intros _].
      apply keeps_bind; [now apply keeps__local_bad_path | intros bad].
      apply keeps_bind; [now apply keeps_write_file | intros _].
      apply keeps_ret.
    + destruct (isinstance_MapFetchUrlException e); [| discriminate].
      injection Hh as <-. apply keeps_ret.
Qed.

Lemma keeps_for_in {I A} (items : list I) (body : I -> Py (flow A)) :
  (forall i, keeps proj (body i)) -> keeps proj (for_in items body).
Proof.
  intros Hbody. induction items as [| i rest IH]; simpl.
  - apply keeps_ret.
  - apply keeps_bind; [apply Hbody |].
    intros [| a]; [exact IH | apply keeps_ret].
Qed.

Lemma keeps_fetch_upto n self : keeps proj (fetch_upto n self).
Proof.
  unfold fetch_upto.
  apply keeps_bind; [now apply keeps_is_local | intros local].
  destruct local; [apply keeps_ret |].
  apply keeps_for_in. apply keeps_fetch_attempt.
Qed.

End AllButClassAttributes.

(** ** Counting requests *)

Lemma sends_quiet {A} (n : nat) (m : Py A) :
  keeps requests m -> sends_at_most n m.
Proof. intros H w. exists []. split; [apply H | simpl; lia]. Qed.

Lemma sends_then_quiet {A C} (n : nat) (m : Py A) (k : A -> Py C) :
  sends_at_most n m -> (forall a, keeps requests (k a)) ->
  sends_at_most n (bind m k).
Proof.
  intros Hm Hk w. unfold bind. destruct (Hm w) as (l & El & Hl).
  destruct (m w) as [[a | e] w']; simpl in *.
  - exists l. now rewrite Hk.
  - now exists l.
Qed.

Lemma sends_after_quiet {A C} (n : nat) (m : Py A) (k : A -> Py C) :
  keeps requests m -> (forall a, sends_at_most n (k a)) ->
  sends_at_most n (bind m k).
Proof.
  intros Hm Hk w. unfold bind. specialize (Hm w).
  destruct (m w) as [[a | e] w']; simpl in *.
  - destruct (Hk a w') as (l & El & Hl). exists l. now rewrite El, Hm.
  - exists []. split; [exact Hm | simpl; lia].
Qed.

Lemma sends_try_except {A} (n : nat) (m : Py A) handler :
  sends_at_most n m ->
  (forall e h, handler e = Some h -> keeps requests h) ->
  sends_at_most n (try_except m handler).
Proof.
  intros Hm Hh w. unfold try_except. destruct (Hm w) as (l & El & Hl).
  destruct (m w) as [[a | e] w']; simpl in *; [now exists l |].
  destruct (handler e) as [h |] eqn:E; [| now exists l].
  exists l. now rewrite (Hh e h E).
Qed.

Lemma sends_urlopen_read url : sends_at_most 1 (urlopen_read url).
Proof. intros w. exists [url]. split; [reflexivity | simpl; lia]. Qed.

Lemma sends_fetch_url self url local :
  sends_at_most 1 (fetch_url self url local).
Proof.
  unfold fetch_url, install_opener.
  apply sends_after_quiet; [apply keeps_gets | intros c].
  destruct (negb (_connected c)); [apply sends_quiet, keeps_raise |].
  apply sends_after_quiet.
  { destruct (truthy (_proxy c)); [| apply keeps_ret].
    apply keeps_modify. reflexivity. }
  intros _. apply sends_then_quiet; [apply sends_urlopen_read |].
  intros [body | code | why]; keeps_steps.
  now apply keeps_write_file.
Qed.

Lemma sends_fetch_attempt self tile_num :
  sends_at_most 1 (fetch_attempt self tile_num).
Proof.
  unfold fetch_attempt.
  apply sends_after_quiet; [now apply keeps_remote_path | intros url].
  apply sends_then_quiet; [| intros [|b]; apply keeps_ret].
  apply sends_try_except.
  - unfold fetch_try.
    apply sends_after_quiet; [now apply keeps__local_path | intros local].
    apply sends_then_quiet; [apply sends_fetch_url | intros _].
    apply keeps_bind; [apply keeps_gets | intros c].
    apply keeps_bind; [| intros _; apply keeps_ret].
    destruct (_map_widget c); [| apply keeps_ret].
    apply keeps_modify. reflexivity.
  - intros e h Hh. unfold fetch_except in Hh.
    destruct (isinstance_MapTileNotFound e).
    + injection Hh as <-. unfold except_MapTileNotFound.
      apply keeps_bind; [now apply keeps__local_bad_path | intros _].
      apply keeps_bind; [now apply keeps__local_bad_path | intros bad].
      apply keeps_bind; [now apply keeps_write_file | intros _].
      apply keeps_ret.
    + destruct (isinstance_MapFetchUrlException e); [| discriminate].
      injection Hh as <-. apply keeps_ret.
Qed.

(** ** The loop of [fetch] *)

(** An attempt never asks for the next iteration: it returns or raises. *)
Lemma fetch_attempt_returns self tile_num w :
  fst (fetch_attempt self tile_num w) <> Ok Continue.
Proof.
  unfold fetch_attempt, bind.
  destruct (remote_path self w) as [[url | e] w1]; simpl; [| discriminate].
  destruct (try_except _ _ w1) as [[[| b] | e] w2]; simpl; discriminate.
Qed.

Lemma for_in_first {I A} (i : I) (rest : list I) (body : I -> Py (flow A)) w :
  fst (body i w) <> Ok Continue ->
  for_in (i :: rest) body w = for_in [i] body w.
Proof.
  intros H. simpl. unfold bind.
  destruct (body i w) as [[[| a] | e] w']; simpl in *; congruence.
Qed.

Lemma fetch_upto_once n self w :
  fetch_upto (S n) self w = fetch_upto 1 self w.
Proof.
  unfold fetch_upto, bind.
  destruct (is_local self w) as [[[|] | e] w1]; try reflexivity.
  unfold range. simpl seq. simpl map.
  rewrite for_in_first by apply fetch_attempt_returns.
  reflexivity.
Qed.

Lemma sends_fetch self : sends_at_most 1 (fetch self).
Proof.
  intros w. unfold fetch. rewrite fetch_upto_once. revert w.
  unfold fetch_upto.
  apply sends_after_quiet; [now apply keeps_is_local | intros local].
  destruct local; [apply sends_quiet, keeps_ret |].
  simpl. apply sends_then_quiet; [apply sends_fetch_attempt |].
  intros [| b]; apply keeps_ret.
Qed.

(** ** Without a base directory *)

Lemma local_file_unconfigured rel w :
  truthy (_base_dir (cls w)) = false -> local_file rel w = (Ok None, w).
Proof.
  intros H. unfold local_file, bind, gets. cbv beta iota.
  destruct (_base_dir (cls w)) as [b |]; [| reflexivity].
  now rewrite H.
Qed.

Lemma is_local_unconfigured self w :
  truthy (_base_dir (cls w)) = false -> is_local self w = (Raise TypeError, w).
Proof.
  intros H. unfold is_local, _local_path.
  rewrite (bind_ok _ _ _ _ _ (local_file_unconfigured _ w H)).
  reflexivity.
Qed.

(** When [is_local] answers at all, the base directory is set. *)
Lemma is_local_configured self w b w1 :
  is_local self w = (Ok b, w1) ->
  exists base, base <> "" /\ _base_dir (cls w) = Some base.
Proof.
  intros H. destruct (truthy (_base_dir (cls w))) eqn:E.
  - destruct (_base_dir (cls w)) as [base |]; [| discriminate].
    exists base. split; [| reflexivity]. intros ->. discriminate.
  - rewrite (is_local_unconfigured self w E) in H. discriminate.
Qed.

(** ** One attempt, step by step *)

Lemma remote_path_pure self w :
  remote_path self w = (fst (remote_path self w), w).
Proof.
  unfold remote_path, bind, gets, path. cbv beta iota.
  destruct (_map_url (cls w)) as [u |]; [| reflexivity]. cbv beta iota.
  destruct (_map_url_key (cls w)) as [k |]; [| reflexivity].
  destruct (truthy (Some k)); reflexivity.
Qed.

Lemma remote_path_with_fs self f w :
  fst (remote_path self (with_fs f w)) = fst (remote_path self w).
Proof.
  unfold remote_path, bind, gets, path. cbv beta iota.
  autorewrite with world.
  destruct (_map_url (cls w)) as [u |]; [| reflexivity]. cbv beta iota.
  destruct (_map_url_key (cls w)) as [k |]; [| reflexivity].
  destruct (truthy (Some k)); reflexivity.
Qed.

Lemma cls_after_request url w : cls (after_request url w) = cls w.
Proof. unfold after_request. now destruct (truthy _). Qed.

Lemma fs_after_request url w : fs (after_request url w) = fs w.
Proof. unfold after_request. now destruct (truthy _). Qed.

Lemma clock_after_request url w : clock (after_request url w) = clock w.
Proof. unfold after_request. now destruct (truthy _). Qed.

Lemma requests_after_request url w :
  requests (after_request url w) = url :: requests w.
Proof. unfold after_request. now destruct (truthy _). Qed.

#[local] Hint Rewrite cls_after_request fs_after_request clock_after_request
  requests_after_request : world.

(** [fetch_url] while connected: one request, and the server's answer
    decides. *)
Lemma fetch_url_eval self url local w :
  _connected (cls w) = true ->
  fetch_url self url local w
  = match server w url with
    | Response body =>
        (let* _ := write_file local body in ret true) (after_request url w)
    | HTTPError code =>
        (Raise (if code =? 404 then MapTileNotFound "404 error code"
                else MapFetchError code), after_request url w)
    | NoAnswer why => (Raise (TransportError why), after_request url w)
    end.
Proof.
  intros Hc. unfold fetch_url, bind at 1, gets at 1. cbv beta iota.
  rewrite Hc. simpl negb. cbv iota.
  unfold after_request, install_opener, urlopen_read, modify, bind, ret.
  destruct (truthy (_proxy (cls w))); simpl;
    destruct (server w url) as [body | code | why]; try reflexivity;
    destruct (code =? 404); reflexivity.
Qed.

Section OneAttempt.

Variables (self : MapTile) (base : string).
Hypothesis base_nonempty : base <> "".

(** The handler of [MapTileNotFound] creates the empty marker, stamped
    with the current time, and touches no other file. *)
Lemma except_MapTileNotFound_eval (w : World) :
  _base_dir (cls w) = Some base ->
  let tile := local_name ".png" base (_zoom (cls w)) self in
  let bad := local_name ".bad" base (_zoom (cls w)) self in
  exists f',
    except_MapTileNotFound self w = (Ok Continue, with_fs f' w)
    /\ f' !! bad = Some (File [] (clock w))
    /\ f' !! tile = fs w !! tile.
Proof.
  intros Hb tile bad.
  assert (String.length bad = String.length tile) as Hlen.
  { subst tile bad. now rewrite !(local_name_length self base). }
  destruct (_local_bad_path_eval self base base_nonempty w Hb)
    as (f1 & E1 & L1). fold bad in E1, L1.
  destruct (_local_bad_path_eval self base base_nonempty (with_fs f1 w) Hb)
    as (f2 & E2 & L2). simpl in E2, L2. fold bad in E2, L2.
  unfold except_MapTileNotFound.
  rewrite (bind_ok _ _ _ _ _ E1), (bind_ok _ _ _ _ _ E2).
  eexists. split; [reflexivity |]. simpl. split.
  - apply lookup_insert_eq.
  - rewrite lookup_insert_ne.
    + rewrite L2, L1 by lia. reflexivity.
    + intros H. symmetry in H.
      exact (local_names_differ self base (_zoom (cls w)) H).
Qed.

(** An attempt that is answered 404. *)
Lemma fetch_attempt_not_found (tile_num : Z) (url : string) (w : World) :
  _base_dir (cls w) = Some base ->
  _connected (cls w) = true ->
  fst (remote_path self w) = Ok url ->
  server w url = HTTPError 404 ->
  let tile := local_name ".png" base (_zoom (cls w)) self in
  let bad := local_name ".bad" base (_zoom (cls w)) self in
  exists w',
    fetch_attempt self tile_num w = (Ok (Return false), w')
    /\ requests w' = url :: requests w
    /\ fs w' !! bad = Some (File [] (clock w))
    /\ fs w' !! tile = fs w !! tile.
Proof.
  intros Hb Hc Hurl Hsrv tile bad.
  unfold fetch_attempt.
  rewrite (bind_ok _ _ _ _ _ (eq_trans (remote_path_pure self w)
                                (f_equal (fun r => (r, w)) Hurl))).
  destruct (_local_path_eval self base base_nonempty w Hb) as (f1 & E1 & L1).
  fold tile in E1, L1.
  assert (try_except (fetch_try self url) (fetch_except self) w
          = except_MapTileNotFound self (after_request url (with_fs f1 w)))
    as Htry.
  { unfold try_except, fetch_try. rewrite (bind_ok _ _ _ _ _ E1).
    unfold bind at 1. rewrite fetch_url_eval by exact Hc.
    simpl server. rewrite Hsrv. reflexivity. }
  destruct (except_MapTileNotFound_eval (after_request url (with_fs f1 w)))
    as (f2 & E2 & Lbad & Ltile).
  { now autorewrite with world. }
  autorewrite with world in Lbad, Ltile. fold tile in Ltile. fold bad in Lbad.
  eexists. split.
  - unfold bind. rewrite Htry, E2. reflexivity.
  - autorewrite with world. repeat split; try assumption.
    rewrite Ltile. apply L1. lia.
Qed.

End OneAttempt.

(** A fetch that finds a valid local copy is answered from the cache. *)
Lemma fetch_cached self base w :
  base <> "" ->
  _base_dir (cls w) = Some base ->
  match fs w !! local_name ".png" base (_zoom (cls w)) self with
  | Some n => not_expired w n
  | None =>
      match fs w !! local_name ".bad" base (_zoom (cls w)) self with
      | Some n => not_expired w n
      | None => false
      end
  end = true ->
  exists f', fetch self w = (Ok (Some true), with_fs f' w).
Proof.
  intros Hne Hb Hv.
  destruct (is_local_eval self base Hne w Hb) as (f' & E & _).
  rewrite Hv in E. exists f'.
  unfold fetch, fetch_upto. now rewrite (bind_ok _ _ _ _ _ E).
Qed.

(** After a miss, [fetch] is its first attempt. *)
Lemma fetch_after_miss self w w1 :
  is_local self w = (Ok false, w1) ->
  fetch self w = for_in [0] (fetch_attempt self) w1.
Proof.
  intros H. unfold fetch. rewrite fetch_upto_once.
  unfold fetch_upto. now rewrite (bind_ok _ _ _ _ _ H).
Qed.

(** The [try] block, given what its [fetch_url] does. *)
Lemma fetch_try_eval self url w local w2 r w3 :
  _local_path self w = (Ok local, w2) ->
  fetch_url self url local w2 = (r, w3) ->
  fetch_try self url w
  = match r with
    | Ok _ =>
        (Ok (Return true),
         match _map_widget (cls w3) with
         | Some _ => with_redraw w3
         | None => w3
         end)
    | Raise e => (Raise e, w3)
    end.
Proof.
  intros H1 H2. unfold fetch_try.
  rewrite (bind_ok _ _ _ _ _ H1).
  destruct r as [v | e].
  - rewrite (bind_ok _ _ _ _ _ H2).
    unfold bind, gets, ret, queue_draw, modify.
    destruct (_map_widget (cls w3)); reflexivity.
  - now rewrite (bind_raise _ _ _ _ _ H2).
Qed.

Lemma fetch_attempt_eval self tile_num url w :
  remote_path self w = (Ok url, w) ->
  fetch_attempt self tile_num w
  = match try_except (fetch_try self url) (fetch_except self) w with
    | (Ok (Return b), w') => (Ok (Return b), w')
    | (Ok Continue, w') => (Ok (Return false), w')
    | (Raise e, w') => (Raise e, w')
    end.
Proof.
  intros H. unfold fetch_attempt. rewrite (bind_ok _ _ _ _ _ H).
  unfold bind.
  destruct (try_except _ _ w) as [[[| b] | e] w']; reflexivity.
Qed.

Lemma not_expired_intro w n :
  _tile_lifetime (cls w) = 0
  \/ _connected (cls w) = false
  \/ lt_int (sub (clock w) (st_mtime n)) (_tile_lifetime (cls w)) = true ->
  not_expired w n = true.
Proof.
  unfold not_expired. intros [-> | [-> | ->]].
  - reflexivity.
  - now rewrite orb_true_r.
  - now destruct (_ || _).
Qed.

(** * The claims *)

(** C10: the cache and fetch operations need the base directory.  While
    [_base_dir] is unset (still [None], or empty), [_local_path] and
    [_local_bad_path] return [None] and leave the world alone, and
    [is_local], [fetch] and [get_local_tile_path] raise ([TypeError], from
    [os.path.exists(None)]) instead of answering. *)
Theorem base_dir_required (self : MapTile) (w : World) :
  truthy (_base_dir (cls w)) = false ->
  _local_path self w = (Ok None, w)
  /\ _local_bad_path self w = (Ok None, w)
  /\ is_local self w = (Raise TypeError, w)
  /\ fetch self w = (Raise TypeError, w)
  /\ get_local_tile_path self w = (Raise TypeError, w).
Proof.
  intros H.
  pose proof (local_file_unconfigured (path self) w H) as Hp.
  pose proof (local_file_unconfigured (bad_path self) w H) as Hb.
  pose proof (is_local_unconfigured self w H) as Hl.
  repeat split; try assumption.
  - unfold fetch, fetch_upto. now rewrite (bind_raise _ _ _ _ _ Hl).
  - unfold get_local_tile_path, _local_path.
    rewrite (bind_ok _ _ _ _ _ Hp), (bind_ok _ _ _ _ _ Hp). reflexivity.
Qed.

Lemma base_dir_required_witness :
  fetch tile_4_4 (fresh_world (always (HTTPError 404)))
  = (Raise TypeError, fresh_world (always (HTTPError 404))).
Proof.
  apply (base_dir_required tile_4_4 (fresh_world (always (HTTPError 404)))).
  reflexivity.
Defined.

(** C7: while [connected] is false, [fetch_url] raises [MapNotConnected]
    and the world is exactly as before: no request was sent and no file
    was written. *)
Theorem fetch_url_not_connected (self : MapTile) (url : string)
    (local : option string) (w : World) :
  _connected (cls w) = false ->
  fetch_url self url local w = (Raise (MapNotConnected "Not connected"), w).
Proof.
  intros H. unfold fetch_url, bind, gets. simpl. now rewrite H.
Qed.

Lemma fetch_url_not_connected_witness :
  fetch_url tile_4_4 "http://tiles.example/3/4/4.png" (Some "/maps/3/4/4.png")
    (configured false 0 None (always (Response [])))
  = (Raise (MapNotConnected "Not connected"),
     configured false 0 None (always (Response []))).
Proof.
  apply fetch_url_not_connected. reflexivity.
Defined.

(** C2: [is_local] answers false when neither the tile file nor the bad
    marker exists.  When one exists, it answers true if the tile lifetime
    is 0 or [connected] is false; otherwise it answers whether the current
    time minus the modification time of the file found (the tile file, or
    else the bad marker) is strictly less than the lifetime. *)
Theorem is_local_spec (self : MapTile) (w : World) (base : string) :
  base <> "" ->
  _base_dir (cls w) = Some base ->
  let tile := fs w !! local_name ".png" base (_zoom (cls w)) self in
  let bad := fs w !! local_name ".bad" base (_zoom (cls w)) self in
  let lifetime := _tile_lifetime (cls w) in
  (tile = None -> bad = None -> fst (is_local self w) = Ok false)
  /\ (forall found,
        tile = Some found \/ (tile = None /\ bad = Some found) ->
        ((lifetime = 0 \/ _connected (cls w) = false) ->
         fst (is_local self w) = Ok true)
        /\ (lifetime <> 0 -> _connected (cls w) = true ->
            fst (is_local self w)
            = Ok (lt_int (sub (clock w) (st_mtime found)) lifetime))).
Proof.
  intros Hne Hb tile bad lifetime.
  destruct (is_local_eval self base Hne w Hb) as (f' & E & _).
  fold tile bad in E. rewrite E. simpl. clear E.
  split.
  - intros -> ->. reflexivity.
  - intros found Hfound.
    assert (match tile with
            | Some n => not_expired w n
            | None => match bad with
                      | Some n => not_expired w n
                      | None => false
                      end
            end = not_expired w found) as ->.
    { destruct Hfound as [-> | [-> ->]]; reflexivity. }
    unfold not_expired. fold lifetime. split.
    + intros [-> | ->]; [reflexivity |].
      now rewrite orb_true_r.
    + intros Hl ->. apply Z.eqb_neq in Hl. now rewrite Hl.
Qed.

(** C1: one call of [fetch] makes at most one network request.  The loop
    over [range(10)] ends in its first iteration, whatever the bound: after
    a failed cache check, the outcome of the one [fetch_url] decides -
    [True] when it succeeds, [False] when it raises [MapTileNotFound] or
    any other [MapFetchUrlException]. *)
Theorem fetch_single_attempt (self : MapTile) (w : World) :
  (requests (snd (fetch self w)) = requests w
   \/ exists url, requests (snd (fetch self w)) = url :: requests w)
  /\ (forall n, fetch_upto (S n) self w = fetch_upto 1 self w)
  /\ (forall w1 url w1' local w2 r w3,
        is_local self w = (Ok false, w1) ->
        remote_path self w1 = (Ok url, w1') ->
        _local_path self w1' = (Ok local, w2) ->
        fetch_url self url local w2 = (r, w3) ->
        match r with
        | Ok _ => fst (fetch self w) = Ok (Some true)
        | Raise e =>
            isinstance_MapFetchUrlException e = true ->
            fst (fetch self w) = Ok (Some false)
        end).
Proof.
  split; [| split].
  - destruct (sends_fetch self w) as (l & El & Hl). rewrite El.
    destruct l as [| url [| ? ?]]; simpl in *; [now left | right | lia].
    now exists url.
  - intros n. apply fetch_upto_once.
  - intros w1 url w1' local w2 r w3 H1 H2 H3 H4.
    assert (w1' = w1) as ->.
    { rewrite remote_path_pure in H2. now injection H2. }
    rewrite (fetch_after_miss self w w1 H1). simpl for_in. unfold bind.
    rewrite (fetch_attempt_eval self 0 url w1 H2). unfold try_except.
    rewrite (fetch_try_eval self url w1 local w2 r w3 H3 H4).
    destruct r as [v | e]; [reflexivity |].
    intros He. unfold fetch_except.
    destruct (isinstance_MapTileNotFound e) eqn:Enf;
      [| rewrite He; reflexivity].
    destruct (is_local_configured self w false w1 H1) as (base & Hne & Hb).
    assert (cls w3 = cls w) as Hcls.
    { pose proof (keeps_is_local cls (fun _ _ => eq_refl) self w) as K1.
      pose proof (keeps__local_path cls (fun _ _ => eq_refl) self w1) as K2.
      pose proof (keeps_fetch_url cls (fun _ _ => eq_refl)
                    (fun _ _ => eq_refl) (fun _ _ => eq_refl)
                    self url local w2) as K3.
      rewrite H1 in K1. rewrite H3 in K2. rewrite H4 in K3. simpl in *.
      congruence. }
    destruct (except_MapTileNotFound_eval self base Hne w3)
      as (f' & E & _); [congruence |].
    rewrite E. reflexivity.
Qed.

Lemma fetch_single_attempt_witness :
  fst (fetch tile_4_4 no_such_tile) = Ok (Some false).
Proof.
  pose proof (fetch_single_attempt tile_4_4 no_such_tile) as (_ & _ & H).
  set (w1 := snd (is_local tile_4_4 no_such_tile)).
  set (w2 := snd (_local_path tile_4_4 w1)).
  set (w3 := snd (fetch_url tile_4_4 tile_4_4_url (Some tile_4_4_file) w2)).
  apply (H w1 tile_4_4_url w1 (Some tile_4_4_file) w2
           (Raise (MapTileNotFound "404 error code")) w3);
    vm_compute; reflexivity.
Defined.

Lemma is_local_spec_witness :
  fst (is_local tile_4_4 stale_tile) = Ok false.
Proof.
  assert ("/maps" <> "") as Hne by discriminate.
  assert (_base_dir (cls stale_tile) = Some "/maps") as Hb
    by (vm_compute; reflexivity).
  destruct (is_local_spec tile_4_4 stale_tile "/maps" Hne Hb) as [_ H].
  destruct (H (File [] (of_int 0))) as [_ H'].
  { left. vm_compute. reflexivity. }
  rewrite H'.
  - vm_compute. reflexivity.
  - vm_compute. discriminate.
  - vm_compute. reflexivity.
Defined.

(** C6, as amended: once a bad marker exists, a fetch of the tile sends no
    request and returns true as long as the local-copy check accepts the
    file it finds (the tile file if there is one, the marker otherwise):
    the tile lifetime is 0, or [connected] is false, or that file is
    younger than the tile lifetime. *)
Theorem bad_marker_short_circuits (self : MapTile) (w : World)
    (base : string) (marker : node) :
  base <> "" ->
  _base_dir (cls w) = Some base ->
  fs w !! local_name ".bad" base (_zoom (cls w)) self = Some marker ->
  let found :=
    match fs w !! local_name ".png" base (_zoom (cls w)) self with
    | Some n => n
    | None => marker
    end in
  _tile_lifetime (cls w) = 0
  \/ _connected (cls w) = false
  \/ lt_int (sub (clock w) (st_mtime found)) (_tile_lifetime (cls w)) = true ->
  fst (fetch self w) = Ok (Some true)
  /\ requests (snd (fetch self w)) = requests w.
Proof.
  intros Hne Hb Hm found Hok.
  destruct (fetch_cached self base w Hne Hb) as (f' & E).
  - rewrite Hm. subst found.
    destruct (fs w !! local_name ".png" base (_zoom (cls w)) self);
      now apply not_expired_intro.
  - rewrite E. split; reflexivity.
Qed.

Lemma bad_marker_short_circuits_witness :
  fst (fetch tile_4_4 (at_time 59 old_marker)) = Ok (Some true)
  /\ requests (snd (fetch tile_4_4 (at_time 59 old_marker))) = [].
Proof.
  apply (bad_marker_short_circuits tile_4_4 (at_time 59 old_marker) "/maps"
           (File [] (of_int 0))).
  - discriminate.
  - vm_compute. reflexivity.
  - vm_compute. reflexivity.
  - right. right. vm_compute. reflexivity.
Defined.

(** C6, as stated, fails: with a bad marker that is 61 seconds old, a tile
    lifetime of 60 seconds and [connected] true, [fetch] asks the server
    again. *)
Lemma expired_marker_is_refetched :
  fs old_marker !! tile_4_4_marker = Some (File [] (of_int 0))
  /\ requests old_marker = []
  /\ requests (snd (fetch tile_4_4 old_marker)) = [tile_4_4_url]
  /\ fst (fetch tile_4_4 old_marker) = Ok (Some false).
Proof. vm_compute. repeat split; reflexivity. Qed.

(** C5, as amended: a fetch that misses the cache and is answered 404
    sends that one request, creates the empty bad marker, stamped with the
    current time, and returns false.  While the marker is there, a later
    fetch of the tile sends no request and returns true provided the
    local-copy check accepts the file it finds (the tile file if there is
    one, the marker otherwise): the tile lifetime is 0, or [connected] is
    false, or that file is younger than the tile lifetime. *)
Theorem not_found_is_remembered (self : MapTile) (w : World)
    (base url : string) :
  base <> "" ->
  _base_dir (cls w) = Some base ->
  _connected (cls w) = true ->
  fst (is_local self w) = Ok false ->
  fst (remote_path self w) = Ok url ->
  server w url = HTTPError 404 ->
  let bad := local_name ".bad" base (_zoom (cls w)) self in
  let tile := local_name ".png" base (_zoom (cls w)) self in
  let w' := snd (fetch self w) in
  fst (fetch self w) = Ok (Some false)
  /\ requests w' = url :: requests w
  /\ fs w' !! bad = Some (File [] (clock w))
  /\ forall later : World,
       _base_dir (cls later) = Some base ->
       _zoom (cls later) = _zoom (cls w) ->
       fs later !! bad = fs w' !! bad ->
       let found :=
         match fs later !! tile with
         | Some n => n
         | None => File [] (clock w)
         end in
       _tile_lifetime (cls later) = 0
       \/ _connected (cls later) = false
       \/ lt_int (sub (clock later) (st_mtime found))
                 (_tile_lifetime (cls later)) = true ->
       fst (fetch self later) = Ok (Some true)
       /\ requests (snd (fetch self later)) = requests later.
Proof.
  intros Hne Hb Hc Hmiss Hurl Hsrv bad tile w'.
  destruct (is_local_eval self base Hne w Hb) as (f1 & E & L).
  rewrite E in Hmiss. simpl in Hmiss. injection Hmiss as Hmiss.
  rewrite Hmiss in E.
  destruct (fetch_attempt_not_found self base Hne 0 url (with_fs f1 w))
    as (w2 & Ea & Hreq & Hbad & _); try assumption.
  { now rewrite remote_path_with_fs. }
  autorewrite with world in Hreq, Hbad. fold bad in Hbad.
  assert (fetch self w = (Ok (Some false), w2)) as Ef.
  { rewrite (fetch_after_miss self w _ E). simpl for_in. unfold bind.
    now rewrite Ea. }
  subst w'. rewrite Ef. simpl fst. simpl snd.
  split; [reflexivity |]. split; [exact Hreq |]. split; [exact Hbad |].
  intros later Hb' Hz Hkept found Hok.
  destruct (fetch_cached self base later Hne Hb') as (f' & E').
  - rewrite Hz. fold bad tile. rewrite Hkept, Hbad. subst found.
    destruct (fs later !! tile); now apply not_expired_intro.
  - rewrite E'. split; reflexivity.
Qed.

Lemma not_found_is_remembered_witness :
  fst (fetch tile_4_4 no_such_tile) = Ok (Some false)
  /\ fst (fetch tile_4_4 (snd (fetch tile_4_4 no_such_tile))) = Ok (Some true)
  /\ requests (snd (fetch tile_4_4 (snd (fetch tile_4_4 no_such_tile))))
     = [tile_4_4_url].
Proof.
  destruct (not_found_is_remembered tile_4_4 no_such_tile "/maps" tile_4_4_url)
    as (H1 & H2 & H3 & H4); try (vm_compute; reflexivity).
  { discriminate. }
  split; [exact H1 |].
  destruct (H4 (snd (fetch tile_4_4 no_such_tile))) as (H5 & H6);
    try (vm_compute; reflexivity).
  { right. right. vm_compute. reflexivity. }
  split; [exact H5 |]. rewrite H6. exact H2.
Defined.

(** C5, as stated, fails.  The tile file is there but stale, the server
    answers 404, [fetch] creates the bad marker and returns false - and
    the very next [fetch], at the same instant, asks the server again and
    returns false, because the local-copy check looks at the stale tile
    file, not at the marker.  Without a tile file the marker itself
    expires: sixty seconds after the 404 the next [fetch] asks again. *)
Lemma not_found_is_asked_again :
  let w1 := snd (fetch tile_4_4 stale_tile) in
  let w2 := at_time 60 (snd (fetch tile_4_4 no_such_tile)) in
  fst (fetch tile_4_4 stale_tile) = Ok (Some false)
  /\ requests w1 = [tile_4_4_url]
  /\ fs w1 !! tile_4_4_marker = Some (File [] (of_int 100))
  /\ fst (fetch tile_4_4 w1) = Ok (Some false)
  /\ requests (snd (fetch tile_4_4 w1)) = [tile_4_4_url; tile_4_4_url]
  /\ fs w2 !! tile_4_4_marker = Some (File [] (of_int 0))
  /\ fst (fetch tile_4_4 w2) = Ok (Some false)
  /\ requests (snd (fetch tile_4_4 w2)) = [tile_4_4_url; tile_4_4_url].
Proof. vm_compute. repeat split; reflexivity. Qed.

(** While connected, [fetch_url] raises [MapTileNotFound] exactly when the
    server answers 404 (supports C3). *)
Lemma fetch_url_not_found_iff self url local w :
  _connected (cls w) = true ->
  (exists msg, fst (fetch_url self url local w) = Raise (MapTileNotFound msg))
  <-> server w url = HTTPError 404.
Proof.
  intros Hc. rewrite (fetch_url_eval self url local w Hc). split.
  - intros [msg H]. destruct (server w url) as [body | code | why].
    + unfold bind, write_file, modify, raise, ret in H.
      destruct local; discriminate.
    + destruct (code =? 404) eqn:E; [| discriminate].
      apply Z.eqb_eq in E. now subst.
    + discriminate.
  - intros ->. now exists "404 error code".
Qed.

(** An HTTP error other than 404 is wrapped in [MapFetchError]
    (supports C3). *)
Lemma fetch_url_http_error self url local w code :
  _connected (cls w) = true ->
  server w url = HTTPError code ->
  code <> 404 ->
  fst (fetch_url self url local w) = Raise (MapFetchError code).
Proof.
  intros Hc Hs Hcode. rewrite (fetch_url_eval self url local w Hc), Hs.
  apply Z.eqb_neq in Hcode. now rewrite Hcode.
Qed.

(** A failure below HTTP leaves [fetch_url] as it is, whatever its kind:
    only [HTTPError] is caught (supports C3). *)
Lemma fetch_url_transport_failure self url local w why :
  _connected (cls w) = true ->
  server w url = NoAnswer why ->
  fst (fetch_url self url local w) = Raise (TransportError why).
Proof.
  intros Hc Hs. now rewrite (fetch_url_eval self url local w Hc), Hs.
Qed.

(** C3: [fetch_url] at the failing input.  The name of the tile server
    does not resolve: the failure of [urlopen] leaves [fetch_url] unwrapped,
    it is no [MapFetchError] and no [MapFetchUrlException] at all, and
    [fetch], which catches only those, raises it too instead of returning
    false. *)
Theorem fetch_url_leaks_transport_failure :
  fst (fetch_url tile_4_4 tile_4_4_url (Some tile_4_4_file) no_dns)
  = Raise (TransportError DNSFailure)
  /\ isinstance_MapFetchUrlException (TransportError DNSFailure) = false
  /\ fst (fetch tile_4_4 no_dns) = Raise (TransportError DNSFailure).
Proof. vm_compute. repeat split; reflexivity. Qed.

(** [set_map_info] stores the access key in [_map_key] and leaves
    [_map_url_key], the attribute [remote_path] reads, as it was
    (supports C4). *)
Lemma set_map_info_key base_dir map_url key w :
  let w' := exec (set_map_info base_dir map_url key) w in
  _map_key (cls w') = key
  /\ _map_url (cls w') = Some map_url
  /\ _map_url_key (cls w') = _map_url_key (cls w).
Proof.
  unfold exec, set_map_info, bind, os_path_isdir, gets, os_makedirs, modify, ret.
  simpl. destruct (isdir (fs w) base_dir); simpl; repeat split; reflexivity.
Qed.

(** Without [_map_url_key], [remote_path] is the map URL followed by the
    tile's relative path (supports C4). *)
Lemma remote_path_without_key self w map_url :
  _map_url (cls w) = Some map_url ->
  _map_url_key (cls w) = None ->
  fst (remote_path self w)
  = Ok (map_url +:+ tile_stem (_zoom (cls w)) self +:+ ".png").
Proof.
  intros Hu Hk. unfold remote_path, bind, gets, path. cbv beta iota.
  rewrite Hu. cbv beta iota. rewrite Hk. reflexivity.
Qed.

(** Replace a closed term by its value. *)
Ltac closed_step t v :=
  replace t with v by (vm_compute; reflexivity); cbv beta iota.

(** The scenario of zoom 3: the position (0.0, 0.0) gives the tile (4, 4),
    for every math module that is exact at the origin (supports C4). *)
Lemma origin_tile_at_zoom_3 (M : MathModule) :
  math_tan M (S754_zero false) = Ok (S754_zero false) ->
  math_cos M (S754_zero false) = Ok (of_int 1) ->
  math_log M (of_int 1) = Ok (S754_zero false) ->
  math_sinh M (S754_zero false) = Ok (S754_zero false) ->
  math_atan M (S754_zero false) = Ok (S754_zero false) ->
  deg2num M 3 origin = Ok (4, 4)
  /\ MapTile__init__ M 3 (Some origin) 0 0 = Ok tile_4_4.
Proof.
  intros Htan Hcos Hlog Hsinh Hatan.
  assert (deg2num M 3 origin = Ok (4, 4)) as Hd.
  { unfold deg2num, deg2num_ytile, rbind, origin, latitude, longitude.
    closed_step (radians (S754_zero false)) (S754_zero false).
    closed_step (pow2 3) (@Ok float (of_int 8)).
    closed_step (deg2num_xtile (of_int 8) (S754_zero false)) (@Ok Z 4).
    rewrite Htan, Hcos. cbv beta iota.
    closed_step (div (of_int 1) (of_int 1)) (@Ok float (of_int 1)).
    closed_step (add (S754_zero false) (of_int 1)) (of_int 1).
    rewrite Hlog. vm_compute. reflexivity. }
  split; [exact Hd |].
  unfold MapTile__init__. rewrite Hd.
  unfold num2deg, num2deg_lat, rbind.
  closed_step (pow2 3) (@Ok float (of_int 8)).
  closed_step (num2deg_lon (of_int 8) 4) (@Ok float (S754_zero false)).
  closed_step (div (of_int (2 * 4)) (of_int 8)) (@Ok float (of_int 1)).
  closed_step (mul pi (sub (of_int 1) (of_int 1))) (S754_zero false).
  rewrite Hsinh, Hatan.
  closed_step (degrees (S754_zero false)) (S754_zero false).
  reflexivity.
Qed.

(** C4: [remote_path] at the failing input.  The access key given to
    [set_map_info] ends up in [_map_key]; [remote_path] looks for it in
    [_map_url_key], which is still [None], and returns the URL of the
    scenario without the key. *)
Theorem remote_path_drops_access_key :
  _map_key (cls with_access_key) = Some "?apikey=secret"
  /\ _map_url_key (cls with_access_key) = None
  /\ fst (remote_path tile_4_4 with_access_key)
     = Ok "http://tiles.example/3/4/4.png".
Proof. vm_compute. repeat split; reflexivity. Qed.

(** C9: [point in tile] is the strict interior test against [tile_edges]:
    it is true exactly when the latitude and the longitude of the point lie
    strictly between the minimum and the maximum edge, hence false for
    every point on an edge, in particular for the tile's north-west and
    south-east corners, the two positions [tile_edges] is made of. *)
Theorem contains_is_strict_interior (M : MathModule) (zoom : Z)
    (self : MapTile) (lat_min lon_min lat_max lon_max : float) :
  tile_edges M zoom self = Ok (lat_min, lon_min, lat_max, lon_max) ->
  let northwest := {| latitude := lat_max; longitude := lon_min |} in
  let southeast := {| latitude := lat_min; longitude := lon_max |} in
  (forall point,
     exists b,
       MapTile__contains__ M zoom self point = Ok b
       /\ (b = true <->
           ltb lat_min (latitude point) = true
           /\ ltb (latitude point) lat_max = true
           /\ ltb lon_min (longitude point) = true
           /\ ltb (longitude point) lon_max = true))
  /\ (forall point,
        latitude point = lat_min \/ latitude point = lat_max
        \/ longitude point = lon_min \/ longitude point = lon_max ->
        MapTile__contains__ M zoom self point = Ok false)
  /\ num2deg M zoom (x_tile self) (y_tile self) = Ok northwest
  /\ num2deg M zoom (x_tile self + 1) (y_tile self + 1) = Ok southeast
  /\ MapTile__contains__ M zoom self northwest = Ok false
  /\ MapTile__contains__ M zoom self southeast = Ok false.
Proof.
  intros He northwest southeast.
  assert (forall point,
            MapTile__contains__ M zoom self point
            = Ok (ltb lat_min (latitude point) && ltb (latitude point) lat_max
                  && (ltb lon_min (longitude point)
                      && ltb (longitude point) lon_max))) as Hc.
  { intros point. unfold MapTile__contains__. now rewrite He. }
  assert (forall point,
            latitude point = lat_min \/ latitude point = lat_max
            \/ longitude point = lon_min \/ longitude point = lon_max ->
            MapTile__contains__ M zoom self point = Ok false) as Hedge.
  { intros point H. rewrite Hc. f_equal.
    destruct H as [-> | [-> | [-> | ->]]]; rewrite ltb_irrefl;
      repeat (rewrite ?andb_false_r, ?andb_false_l); reflexivity. }
  split; [| split; [exact Hedge |]].
  - intros point. eexists. split; [apply Hc |].
    rewrite !andb_true_iff. tauto.
  - unfold tile_edges in He.
    destruct (num2deg M zoom (x_tile self) (y_tile self))
      as [[nlat nlon] | e]; [| discriminate].
    destruct (num2deg M zoom (x_tile self + 1) (y_tile self + 1))
      as [[slat slon] | e]; [| discriminate].
    simpl in He. injection He as -> -> -> ->.
    repeat split; try reflexivity; apply Hedge; simpl; tauto.
Qed.

Lemma contains_is_strict_interior_witness :
  MapTile__contains__ taylor_math 3 tile_4_4 origin = Ok false.
Proof.
  destruct (contains_is_strict_interior taylor_math 3 tile_4_4
              (S754_finite true 5237741798288851 (-47)) (S754_zero false)
              (S754_zero false) (S754_finite false 6333186975989760 (-47)))
    as (_ & _ & _ & _ & H & _).
  - vm_compute. reflexivity.
  - exact H.
Defined.

(** C8: the round trip at two failing inputs.  At zoom 54 the x index
    [2^54 - 1] is not a binary64 number and comes back as [2^54], whatever
    the math library does.  At zoom 2, with the results of the C library
    listed in [returns_sampled_values], [log] returns one unit in the last
    place more than [pi / 2], the product falls just below 1 and [int]
    truncates it: tile (0, 1) comes back as (0, 0), and
    [MapTile(x_axis=0, y_axis=1)] is a tile whose [y_tile] is 0. *)
Theorem round_trip_fails (M : MathModule) :
  (forall y,
     (let? p := num2deg M 54 (2 ^ 54 - 1) y in deg2num M 54 p)
     <> Ok (2 ^ 54 - 1, y))
  /\ (returns_sampled_values M ->
      (let? p := num2deg M 2 0 1 in deg2num M 2 p) = Ok (0, 0)
      /\ exists tile, MapTile__init__ M 2 None 0 1 = Ok tile
                      /\ x_tile tile = 0 /\ y_tile tile = 0).
Proof.
  split.
  - intros y. unfold num2deg, rbind.
    closed_step (pow2 54) (@Ok float (of_int (2 ^ 54))).
    closed_step (num2deg_lon (of_int (2 ^ 54)) (2 ^ 54 - 1))
                (@Ok float (of_int 180)).
    destruct (num2deg_lat M (of_int (2 ^ 54)) y) as [lat | e];
      [| discriminate].
    unfold deg2num, rbind, longitude.
    closed_step (pow2 54) (@Ok float (of_int (2 ^ 54))).
    closed_step (deg2num_xtile (of_int (2 ^ 54)) (of_int 180)) (@Ok Z (2 ^ 54)).
    destruct (deg2num_ytile M _ _) as [y' | e]; [| discriminate].
    intros H. injection H as H _. revert H. vm_compute. discriminate.
  - intros (Hsinh & Hatan & Htan & Hcos & Hlog).
    assert (num2deg M 2 0 1
            = Ok {| latitude := degrees val_atan;
                    longitude := of_int (-180) |}) as Hn.
    { unfold num2deg, num2deg_lat, rbind.
      closed_step (pow2 2) (@Ok float (of_int 4)).
      closed_step (num2deg_lon (of_int 4) 0) (@Ok float (of_int (-180))).
      closed_step (div (of_int (2 * 1)) (of_int 4))
                  (@Ok float (SFdiv prec emax (of_int 1) (of_int 2))).
      closed_step (mul pi (sub (of_int 1) (SFdiv prec emax (of_int 1) (of_int 2))))
                  arg_sinh.
      rewrite Hsinh, Hatan. reflexivity. }
    assert (deg2num M 2 {| latitude := degrees val_atan;
                           longitude := of_int (-180) |} = Ok (0, 0)) as Hd.
    { unfold deg2num, deg2num_ytile, rbind, latitude, longitude.
      closed_step (radians (degrees val_atan)) val_atan.
      closed_step (pow2 2) (@Ok float (of_int 4)).
      closed_step (deg2num_xtile (of_int 4) (of_int (-180))) (@Ok Z 0).
      rewrite Htan, Hcos. cbv beta iota.
      replace (div (of_int 1) val_cos)
        with (@Ok float (SFdiv prec emax (of_int 1) val_cos))
        by (vm_compute; reflexivity).
      cbv beta iota.
      closed_step (add val_tan (SFdiv prec emax (of_int 1) val_cos)) arg_log.
      rewrite Hlog. vm_compute. reflexivity. }
    split.
    + rewrite Hn. exact Hd.
    + unfold MapTile__init__. rewrite Hn. unfold rbind at 1. rewrite Hd.
      eexists. split; [reflexivity |]. split; reflexivity.
Qed.

Lemma round_trip_fails_witness :
  (let? p := num2deg sampled_math 2 0 1 in deg2num sampled_math 2 p)
  = Ok (0, 0).
Proof.
  apply (round_trip_fails sampled_math).
  vm_compute. repeat split; reflexivity.
Defined.

(** * Beyond the claims *)

(** ** Computations that only create directories *)

Lemma more_directories_refl f : more_directories f f.
Proof. split; auto. Qed.

Lemma more_directories_trans f g h :
  more_directories f g -> more_directories g h -> more_directories f h.
Proof.
  intros [F1 F2] [G1 G2]. split.
  - auto.
  - intros p n H. destruct (G2 p n H) as [H' | H']; [auto | now right].
Qed.

Lemma makedirs_from_more fuel : forall name now (f : gmap string node),
  more_directories f (makedirs_from fuel name now f).
Proof.
  assert (forall name now (f1 : gmap string node),
            more_directories f1
              match f1 !! name with
              | Some _ => f1
              | None => <[name := Dir now]> f1
              end) as Hlast.
  { intros name now f1. destruct (f1 !! name) eqn:E.
    - apply more_directories_refl.
    - split; intros p n H.
      + rewrite lookup_insert_ne; [exact H |]. intros <-. congruence.
      + destruct (decide (name = p)) as [<- | Hne].
        * rewrite lookup_insert_eq in H. injection H as <-. now right.
        * rewrite lookup_insert_ne in H by exact Hne. now left. }
  induction fuel as [| fuel IH]; intros name now f; simpl.
  - apply Hlast.
  - match goal with
    | |- context [if ?c then ?a else f] => set (f1 := if c then a else f)
    end.
    apply more_directories_trans with f1; [| apply Hlast].
    subst f1. destruct (_ && _); [apply IH | apply more_directories_refl].
Qed.

Lemma only_adds_same_fs {A} (m : Py A) :
  (forall w, fs (snd (m w)) = fs w) -> only_adds m.
Proof. intros H w. rewrite H. apply more_directories_refl. Qed.

Lemma only_adds_ret {A} (a : A) : only_adds (ret a).
Proof. now apply only_adds_same_fs. Qed.


Lemma only_adds_gets {A} (f : World -> A) : only_adds (gets f).
Proof. now apply only_adds_same_fs. Qed.

Lemma only_adds_bind {A C} (m : Py A) (k : A -> Py C) :
  only_adds m -> (forall a, only_adds (k a)) -> only_adds (bind m k).
Proof.
  intros Hm Hk w. unfold bind. specialize (Hm w).
  destruct (m w) as [[a | e] w']; simpl in *; [| exact Hm].
  eapply more_directories_trans; [exact Hm | apply Hk].
Qed.

Lemma only_adds_os_makedirs name : only_adds (os_makedirs name).
Proof. intros w. apply makedirs_from_more. Qed.



Lemma only_adds_local_file rel : only_adds rel -> only_adds (local_file rel).
Proof.
  intros Hrel. unfold local_file.
  apply only_adds_bind; [apply only_adds_gets | intros [base |]];
    [| apply only_adds_ret].
  destruct (negb (truthy (Some base))); [apply only_adds_ret |].
  apply only_adds_bind; [exact Hrel | intros rel'].
  apply only_adds_bind; [apply only_adds_gets | intros d].
  apply only_adds_bind; [| intros _; apply only_adds_ret].
  destruct (negb d); [apply only_adds_os_makedirs | apply only_adds_ret].
Qed.

Lemma only_adds__local_path self : only_adds (_local_path self).
Proof. apply only_adds_local_file, only_adds_gets. Qed.




Lemma keeps_get_local_tile_path {B} (proj : World -> B) self :
  (forall f w, proj (with_fs f w) = proj w) ->
  keeps proj (get_local_tile_path self).
Proof.
  intros Hfs. unfold get_local_tile_path.
  apply keeps_bind; [now apply keeps__local_path | intros local_cache].
  apply keeps_bind; [now apply keeps__local_path | intros again].
  apply keeps_bind; [now apply keeps_os_path_exists | intros found].
  destruct found; apply keeps_ret.
Qed.


(** ** What [fetch] writes *)


Section Tidy.

Variables (c : MapTileClass) (S : string -> Prop).










End Tidy.

Section FetchWrites.

Variables (self : MapTile) (base : string) (c : MapTileClass).
Hypothesis base_nonempty : base <> "".
Hypothesis configured_base : _base_dir c = Some base.

Let tile := local_name ".png" base (_zoom c) self.
Let bad := local_name ".bad" base (_zoom c) self.
Let S := fun p : string => p = tile \/ p = bad.





End FetchWrites.



(** ** The outcomes of an attempt *)

Lemma fs_with_redraw w : fs (with_redraw w) = fs w.
Proof. reflexivity. Qed.

Lemma requests_with_redraw w : requests (with_redraw w) = requests w.
Proof. reflexivity. Qed.

Lemma server_after_request url w : server (after_request url w) = server w.
Proof. unfold after_request. now destruct (truthy _). Qed.

Lemma redraws_after_request url w : redraws (after_request url w) = redraws w.
Proof. unfold after_request. now destruct (truthy _). Qed.

Lemma redraws_with_fs f w : redraws (with_fs f w) = redraws w.
Proof. reflexivity. Qed.

Lemma redraws_with_redraw w : redraws (with_redraw w) = Datatypes.S (redraws w).
Proof. reflexivity. Qed.

#[local] Hint Rewrite fs_with_redraw requests_with_redraw
  server_after_request redraws_after_request redraws_with_fs
  redraws_with_redraw : world.

Lemma fetch_url_offline self url local w :
  _connected (cls w) = false ->
  fetch_url self url local w = (Raise (MapNotConnected "Not connected"), w).
Proof. intros H. unfold fetch_url, bind, gets. simpl. now rewrite H. Qed.

Section Outcomes.

Variables (self : MapTile) (base : string).
Hypothesis base_nonempty : base <> "".

Variables (w : World) (url : string).
Hypothesis configured_base : _base_dir (cls w) = Some base.
Hypothesis remote : fst (remote_path self w) = Ok url.

Let tile := local_name ".png" base (_zoom (cls w)) self.
Let bad := local_name ".bad" base (_zoom (cls w)) self.

Lemma remote_path_here : remote_path self w = (Ok url, w).
Proof. rewrite remote_path_pure. now rewrite remote. Qed.

Lemma names_same_length : String.length bad = String.length tile.
Proof. subst tile bad. now rewrite !local_name_length. Qed.

(** The server delivers the tile. *)
Lemma fetch_attempt_downloaded tile_num body :
  _connected (cls w) = true ->
  server w url = Response body ->
  exists w',
    fetch_attempt self tile_num w = (Ok (Return true), w')
    /\ requests w' = url :: requests w
    /\ fs w' !! tile = Some (File body (clock w))
    /\ fs w' !! bad = fs w !! bad
    /\ redraws w' = match _map_widget (cls w) with
                    | Some _ => Datatypes.S (redraws w)
                    | None => redraws w
                    end.
Proof.
  intros Hc Hsrv.
  destruct (_local_path_eval self base base_nonempty w configured_base)
    as (f1 & E1 & L1). fold tile in E1, L1.
  pose proof names_same_length as Hlen.
  set (w2 := after_request url (with_fs f1 w)).
  set (w3 := with_fs (<[tile := File body (clock w2)]> (fs w2)) w2).
  assert (fetch_url self url (Some tile) (with_fs f1 w) = (Ok true, w3)) as E2.
  { rewrite fetch_url_eval by exact Hc. simpl server. rewrite Hsrv.
    reflexivity. }
  rewrite (fetch_attempt_eval self tile_num url w remote_path_here).
  unfold try_except.
  rewrite (fetch_try_eval self url w (Some tile) _ _ _ E1 E2).
  eexists. split; [reflexivity |].
  assert (cls w3 = cls w) as Hcls.
  { subst w3 w2. now autorewrite with world. }
  rewrite Hcls.
  assert (forall v : World,
            v = match _map_widget (cls w) with
                | Some _ => with_redraw w3
                | None => w3
                end ->
            requests v = requests w3 /\ fs v = fs w3) as Hv.
  { intros v ->. now destruct (_map_widget (cls w)). }
  destruct (Hv _ eq_refl) as [-> ->].
  subst w3 w2. autorewrite with world.
  split; [reflexivity |]. split; [apply lookup_insert_eq |]. split.
  - rewrite lookup_insert_ne.
    + apply L1. lia.
    + apply (local_names_differ self base).
  - destruct (_map_widget (cls w)); now autorewrite with world.
Qed.

(** The server answers with an HTTP error other than 404. *)
Lemma fetch_attempt_http_error tile_num code :
  _connected (cls w) = true ->
  server w url = HTTPError code ->
  code <> 404 ->
  exists w',
    fetch_attempt self tile_num w = (Ok (Return false), w')
    /\ requests w' = url :: requests w
    /\ fs w' !! tile = fs w !! tile
    /\ fs w' !! bad = fs w !! bad.
Proof.
  intros Hc Hsrv Hcode.
  destruct (_local_path_eval self base base_nonempty w configured_base)
    as (f1 & E1 & L1). fold tile in E1, L1.
  pose proof names_same_length as Hlen.
  assert (fetch_url self url (Some tile) (with_fs f1 w)
          = (Raise (MapFetchError code), after_request url (with_fs f1 w)))
    as E2.
  { rewrite fetch_url_eval by exact Hc. simpl server. rewrite Hsrv.
    apply Z.eqb_neq in Hcode. now rewrite Hcode. }
  rewrite (fetch_attempt_eval self tile_num url w remote_path_here).
  unfold try_except.
  rewrite (fetch_try_eval self url w (Some tile) _ _ _ E1 E2).
  eexists. split; [reflexivity |].
  autorewrite with world. repeat split; apply L1; lia.
Qed.

(** No answer below HTTP: the exception leaves the attempt. *)
Lemma fetch_attempt_no_answer tile_num why :
  _connected (cls w) = true ->
  server w url = NoAnswer why ->
  fst (fetch_attempt self tile_num w) = Raise (TransportError why).
Proof.
  intros Hc Hsrv.
  destruct (_local_path_eval self base base_nonempty w configured_base)
    as (f1 & E1 & L1).
  assert (fetch_url self url (Some tile) (with_fs f1 w)
          = (Raise (TransportError why), after_request url (with_fs f1 w)))
    as E2.
  { rewrite fetch_url_eval by exact Hc. simpl server. now rewrite Hsrv. }
  rewrite (fetch_attempt_eval self tile_num url w remote_path_here).
  unfold try_except.
  rewrite (fetch_try_eval self url w (Some tile) _ _ _ E1 E2).
  reflexivity.
Qed.

(** Not connected: no request, nothing written. *)
Lemma fetch_attempt_offline tile_num :
  _connected (cls w) = false ->
  exists w',
    fetch_attempt self tile_num w = (Ok (Return false), w')
    /\ requests w' = requests w
    /\ fs w' !! tile = fs w !! tile
    /\ fs w' !! bad = fs w !! bad.
Proof.
  intros Hc.
  destruct (_local_path_eval self base base_nonempty w configured_base)
    as (f1 & E1 & L1). fold tile in E1, L1.
  pose proof names_same_length as Hlen.
  assert (fetch_url self url (Some tile) (with_fs f1 w)
          = (Raise (MapNotConnected "Not connected"), with_fs f1 w)) as E2.
  { now apply fetch_url_offline. }
  rewrite (fetch_attempt_eval self tile_num url w remote_path_here).
  unfold try_except.
  rewrite (fetch_try_eval self url w (Some tile) _ _ _ E1 E2).
  eexists. split; [reflexivity |].
  autorewrite with world. repeat split; apply L1; lia.
Qed.

End Outcomes.

(** ** [fetch] as a whole *)

Lemma remote_path_same_cls self w w' :
  cls w' = cls w -> fst (remote_path self w') = fst (remote_path self w).
Proof.
  intros H. destruct w, w'. simpl in H. subst.
  unfold remote_path, bind, gets, path. simpl.
  destruct (_map_url _) as [u |]; [| reflexivity]. simpl.
  destruct (_map_url_key _) as [k |]; [| reflexivity].
  simpl. destruct (negb _); reflexivity.
Qed.

Section WholeFetch.

Variables (self : MapTile) (base : string).
Hypothesis base_nonempty : base <> "".

Variable w : World.
Hypothesis configured_base : _base_dir (cls w) = Some base.

Let tile := local_name ".png" base (_zoom (cls w)) self.
Let bad := local_name ".bad" base (_zoom (cls w)) self.

(** The answer of [is_local] only depends on the class attributes, the
    clock and the entries of the tile file and the marker. *)
Lemma is_local_same_answer w' :
  cls w' = cls w -> clock w' = clock w ->
  fs w' !! tile = fs w !! tile -> fs w' !! bad = fs w !! bad ->
  fst (is_local self w') = fst (is_local self w).
Proof.
  intros Hc Ht Htile Hbad.
  destruct (is_local_eval self base base_nonempty w configured_base)
    as (f1 & E1 & _).
  destruct (is_local_eval self base base_nonempty w') as (f2 & E2 & _).
  { now rewrite Hc. }
  rewrite E1, E2. simpl. rewrite Hc. fold tile bad.
  rewrite Htile, Hbad. unfold not_expired. rewrite Hc, Ht. reflexivity.
Qed.

Lemma fetch_hit :
  fst (is_local self w) = Ok true ->
  exists f1,
    fetch self w = (Ok (Some true), with_fs f1 w)
    /\ forall p, (String.length tile <= String.length p)%nat ->
                 f1 !! p = fs w !! p.
Proof.
  intros Hv.
  destruct (is_local_eval self base base_nonempty w configured_base)
    as (f1 & E & L).
  rewrite E in Hv. simpl in Hv. injection Hv as Hv. rewrite Hv in E.
  exists f1. split; [| exact L].
  unfold fetch, fetch_upto. now rewrite (bind_ok _ _ _ _ _ E).
Qed.

Lemma fetch_miss :
  fst (is_local self w) = Ok false ->
  exists f1,
    fetch self w
    = match fetch_attempt self 0 (with_fs f1 w) with
      | (Ok (Return b), w') => (Ok (Some b), w')
      | (Ok Continue, w') => (Ok None, w')
      | (Raise e, w') => (Raise e, w')
      end
    /\ forall p, (String.length tile <= String.length p)%nat ->
                 f1 !! p = fs w !! p.
Proof.
  intros Hv.
  destruct (is_local_eval self base base_nonempty w configured_base)
    as (f1 & E & L).
  rewrite E in Hv. simpl in Hv. injection Hv as Hv. rewrite Hv in E.
  exists f1. split; [| exact L].
  rewrite (fetch_after_miss self w _ E). simpl for_in. unfold bind, ret.
  destruct (fetch_attempt self 0 (with_fs f1 w)) as [[[| b] | e] w'];
    reflexivity.
Qed.

End WholeFetch.

Lemma fetch_value (self : MapTile) (w : World) (base url : string)
    (local : bool) :
  base <> "" ->
  _base_dir (cls w) = Some base ->
  fst (remote_path self w) = Ok url ->
  fst (is_local self w) = Ok local ->
  fst (fetch self w)
  = if local then Ok (Some true)
    else if negb (_connected (cls w)) then Ok (Some false)
    else match server w url with
         | Response _ => Ok (Some true)
         | HTTPError _ => Ok (Some false)
         | NoAnswer why => Raise (TransportError why)
         end.
Proof.
  intros Hne Hb Hurl Hlocal. destruct local.
  - destruct (fetch_hit self base Hne w Hb Hlocal) as (f1 & E & _).
    now rewrite E.
  - destruct (fetch_miss self base Hne w Hb Hlocal) as (f1 & E & _).
    rewrite E. clear E.
    assert (fst (remote_path self (with_fs f1 w)) = Ok url) as Hurl1.
    { now rewrite remote_path_with_fs. }
    destruct (_connected (cls w)) eqn:Hc; simpl negb; cbv iota.
    + destruct (server w url) as [body | code | why] eqn:Hsrv.
      * destruct (fetch_attempt_downloaded self base Hne (with_fs f1 w) url
                    Hb Hurl1 0 body Hc Hsrv) as (w' & E & _).
        now rewrite E.
      * destruct (Z.eq_dec code 404) as [-> | Hcode].
        -- destruct (fetch_attempt_not_found self base Hne 0 url
                       (with_fs f1 w) Hb Hc Hurl1 Hsrv) as (w' & E & _).
           now rewrite E.
        -- destruct (fetch_attempt_http_error self base Hne (with_fs f1 w)
                       url Hb Hurl1 0 code Hc Hsrv Hcode) as (w' & E & _).
           now rewrite E.
      * pose proof (fetch_attempt_no_answer self base Hne (with_fs f1 w) url
                      Hb Hurl1 0 why Hc Hsrv) as E.
        destruct (fetch_attempt self 0 (with_fs f1 w)) as [[[| b] | e] w'];
          simpl in E; try discriminate. now injection E as ->.
    + destruct (fetch_attempt_offline self base Hne (with_fs f1 w) url
                  Hb Hurl1 0 Hc) as (w' & E & _).
      now rewrite E.
Qed.

(** X3: the value of [fetch].  With a base directory and a map URL set,
    [fetch] returns True when the local-copy check succeeds; otherwise it
    returns False when not connected, True when the server delivers the
    tile, False when the server answers with an HTTP error (404 or any
    other), and it raises the transport failure itself when the server
    cannot be reached. *)
Theorem fetch_outcome (self : MapTile) (w : World) (base url : string)
    (local : bool) :
  base <> "" ->
  _base_dir (cls w) = Some base ->
  fst (remote_path self w) = Ok url ->
  fst (is_local self w) = Ok local ->
  fst (fetch self w)
  = if local then Ok (Some true)
    else if negb (_connected (cls w)) then Ok (Some false)
    else match server w url with
         | Response _ => Ok (Some true)
         | HTTPError _ => Ok (Some false)
         | NoAnswer why => Raise (TransportError why)
         end.
Proof.
  intros Hne Hb Hurl Hlocal.
  pose proof (fetch_value self w base url local Hne Hb Hurl Hlocal) as H.
  destruct local; [exact H |].
  destruct (_connected (cls w)); [| exact H].
  destruct (server w url); exact H.
Qed.

Lemma fetch_outcome_witness :
  fst (fetch tile_4_4 no_dns) = Raise (TransportError DNSFailure).
Proof.
  apply (fetch_outcome tile_4_4 no_dns "/maps" tile_4_4_url false).
  - discriminate.
  - vm_compute. reflexivity.
  - vm_compute. reflexivity.
  - vm_compute. reflexivity.
Defined.

Section AfterFetch.

Variables (self : MapTile) (base : string).
Hypothesis base_nonempty : base <> "".

(** [get_local_tile_path] answers by the presence of the tile file alone. *)
Lemma get_local_tile_path_eval (w : World) :
  _base_dir (cls w) = Some base ->
  let tile := local_name ".png" base (_zoom (cls w)) self in
  fst (get_local_tile_path self w)
  = Ok (if present (fs w) tile then Some tile else None).
Proof.
  intros Hb tile.
  destruct (_local_path_eval self base base_nonempty w Hb) as (f1 & E1 & L1).
  destruct (_local_path_eval self base base_nonempty (with_fs f1 w) Hb)
    as (f2 & E2 & L2).
  simpl in E2, L2. fold tile in E1, L1, E2, L2.
  unfold get_local_tile_path.
  rewrite (bind_ok _ _ _ _ _ E1), (bind_ok _ _ _ _ _ E2).
  unfold bind, os_path_exists, gets, present. autorewrite with world.
  rewrite (L2 tile), (L1 tile) by lia.
  destruct (fs w !! tile); reflexivity.
Qed.

(** The world after [fetch] agrees with the world before on the class
    attributes, the clock and the server. *)
Lemma fetch_keeps (w : World) :
  cls (snd (fetch self w)) = cls w
  /\ clock (snd (fetch self w)) = clock w
  /\ server (snd (fetch self w)) = server w.
Proof.
  repeat split.
  - apply (keeps_fetch_upto cls); reflexivity.
  - apply (keeps_fetch_upto clock); reflexivity.
  - apply (keeps_fetch_upto server); reflexivity.
Qed.

End AfterFetch.

(** X4: a download is stored.  When the local-copy check fails, the
    process is connected and the server delivers the tile, [fetch] returns
    True after exactly one request, for the tile's URL; the tile file then
    holds the bytes received, stamped with the current time, the bad marker
    is as before, the map widget - if one is registered - was asked once to
    redraw, and [get_local_tile_path] finds the file. *)
Theorem fetch_stores_download (self : MapTile) (w : World)
    (base url : string) (body : list Byte.byte) :
  base <> "" ->
  _base_dir (cls w) = Some base ->
  fst (remote_path self w) = Ok url ->
  fst (is_local self w) = Ok false ->
  _connected (cls w) = true ->
  server w url = Response body ->
  let tile := local_name ".png" base (_zoom (cls w)) self in
  let bad := local_name ".bad" base (_zoom (cls w)) self in
  let w' := snd (fetch self w) in
  fst (fetch self w) = Ok (Some true)
  /\ requests w' = url :: requests w
  /\ fs w' !! tile = Some (File body (clock w))
  /\ fs w' !! bad = fs w !! bad
  /\ redraws w' = match _map_widget (cls w) with
                  | Some _ => Datatypes.S (redraws w)
                  | None => redraws w
                  end
  /\ fst (get_local_tile_path self w') = Ok (Some tile).
Proof.
  intros Hne Hb Hurl Hmiss Hc Hsrv tile bad w'.
  assert (String.length bad = String.length tile) as Hlen.
  { subst tile bad. now rewrite !local_name_length. }
  destruct (fetch_keeps self w) as (Kcls & _ & _). fold w' in Kcls.
  destruct (fetch_miss self base Hne w Hb Hmiss) as (f1 & E & L).
  destruct (fetch_attempt_downloaded self base Hne (with_fs f1 w) url Hb
              ltac:(now rewrite remote_path_with_fs) 0 body Hc Hsrv)
    as (w2 & E2 & Hreq & Htile & Hbad & Hdraw).
  rewrite E2 in E. autorewrite with world in Hreq, Htile, Hbad, Hdraw.
  fold tile in Htile, L. fold bad in Hbad.
  assert (w' = w2) as Hw by (subst w'; now rewrite E).
  rewrite E, Hw. simpl fst.
  split; [reflexivity |]. split; [exact Hreq |]. split; [exact Htile |].
  split; [rewrite Hbad; apply L; lia |]. split; [exact Hdraw |].
  rewrite <- Hw.
  rewrite (get_local_tile_path_eval self base Hne w') by now rewrite Kcls.
  rewrite Kcls. fold tile. unfold present. rewrite Hw, Htile. reflexivity.
Qed.

Lemma fetch_stores_download_witness :
  let w := configured true 60 None (always (Response [Byte.x89; Byte.x50])) in
  fs (snd (fetch tile_4_4 w)) !! tile_4_4_file
  = Some (File [Byte.x89; Byte.x50] (of_int 0)).
Proof.
  intros w.
  assert ("/maps" <> "") as H0 by discriminate.
  assert (_base_dir (cls w) = Some "/maps") as H1 by (vm_compute; reflexivity).
  assert (fst (remote_path tile_4_4 w) = Ok tile_4_4_url) as H2
    by (vm_compute; reflexivity).
  assert (fst (is_local tile_4_4 w) = Ok false) as H3
    by (vm_compute; reflexivity).
  assert (_connected (cls w) = true) as H4 by (vm_compute; reflexivity).
  assert (server w tile_4_4_url = Response [Byte.x89; Byte.x50]) as H5
    by (vm_compute; reflexivity).
  destruct (fetch_stores_download tile_4_4 w "/maps" tile_4_4_url
              [Byte.x89; Byte.x50] H0 H1 H2 H3 H4 H5) as (_ & _ & H & _).
  exact H.
Defined.

(** X5: other failures are not remembered.  When the local-copy check
    fails and the server answers with an HTTP error other than 404,
    [fetch] returns False after one request and leaves both the tile file
    and the bad marker as they were; a second [fetch] right after it asks
    the server again. *)
Theorem fetch_error_is_not_remembered (self : MapTile) (w : World)
    (base url : string) (code : Z) :
  base <> "" ->
  _base_dir (cls w) = Some base ->
  fst (remote_path self w) = Ok url ->
  fst (is_local self w) = Ok false ->
  _connected (cls w) = true ->
  server w url = HTTPError code ->
  code <> 404 ->
  let tile := local_name ".png" base (_zoom (cls w)) self in
  let bad := local_name ".bad" base (_zoom (cls w)) self in
  let w' := snd (fetch self w) in
  fst (fetch self w) = Ok (Some false)
  /\ requests w' = url :: requests w
  /\ fs w' !! tile = fs w !! tile
  /\ fs w' !! bad = fs w !! bad
  /\ fst (fetch self w') = Ok (Some false)
  /\ requests (snd (fetch self w')) = url :: url :: requests w.
Proof.
  intros Hne Hb Hurl Hmiss Hc Hsrv Hcode tile bad w'.
  assert (forall v : World,
            _base_dir (cls v) = Some base ->
            fst (remote_path self v) = Ok url ->
            fst (is_local self v) = Ok false ->
            _connected (cls v) = true ->
            server v url = HTTPError code ->
            fst (fetch self v) = Ok (Some false)
            /\ requests (snd (fetch self v)) = url :: requests v
            /\ fs (snd (fetch self v))
               !! local_name ".png" base (_zoom (cls v)) self
               = fs v !! local_name ".png" base (_zoom (cls v)) self
            /\ fs (snd (fetch self v))
               !! local_name ".bad" base (_zoom (cls v)) self
               = fs v !! local_name ".bad" base (_zoom (cls v)) self) as Hone.
  { intros v Hvb Hvurl Hvmiss Hvc Hvsrv.
    assert (String.length (local_name ".bad" base (_zoom (cls v)) self)
            = String.length (local_name ".png" base (_zoom (cls v)) self))
      as Hlen by now rewrite !local_name_length.
    destruct (fetch_miss self base Hne v Hvb Hvmiss) as (f1 & E & L).
    destruct (fetch_attempt_http_error self base Hne (with_fs f1 v) url Hvb
                ltac:(now rewrite remote_path_with_fs) 0 code Hvc Hvsrv Hcode)
      as (w2 & E2 & Hreq & Htile & Hbad).
    rewrite E2 in E. autorewrite with world in Hreq, Htile, Hbad.
    rewrite E. simpl. repeat split; try assumption.
    - rewrite Htile. apply L. lia.
    - rewrite Hbad. apply L. lia. }
  destruct (Hone w Hb Hurl Hmiss Hc Hsrv) as (R1 & R2 & R3 & R4).
  fold w' tile in R2, R3. fold w' bad in R4.
  destruct (fetch_keeps self w) as (Kcls & Kclock & Ksrv).
  fold w' in Kcls, Kclock, Ksrv.
  destruct (Hone w') as (S1 & S2 & _).
  - now rewrite Kcls.
  - now rewrite (remote_path_same_cls self w w' Kcls).
  - rewrite (is_local_same_answer self base Hne w Hb w'); auto.
  - now rewrite Kcls.
  - now rewrite Ksrv.
  - repeat split; try assumption. now rewrite S2, R2.
Qed.

Lemma fetch_error_is_not_remembered_witness :
  let w := configured true 60 None (always (HTTPError 503)) in
  requests (snd (fetch tile_4_4 (snd (fetch tile_4_4 w))))
  = [tile_4_4_url; tile_4_4_url].
Proof.
  intros w.
  assert ("/maps" <> "") as H0 by discriminate.
  assert (_base_dir (cls w) = Some "/maps") as H1 by (vm_compute; reflexivity).
  assert (fst (remote_path tile_4_4 w) = Ok tile_4_4_url) as H2
    by (vm_compute; reflexivity).
  assert (fst (is_local tile_4_4 w) = Ok false) as H3
    by (vm_compute; reflexivity).
  assert (_connected (cls w) = true) as H4 by (vm_compute; reflexivity).
  assert (server w tile_4_4_url = HTTPError 503) as H5
    by (vm_compute; reflexivity).
  assert (503 <> 404) as H6 by discriminate.
  destruct (fetch_error_is_not_remembered tile_4_4 w "/maps" tile_4_4_url 503
              H0 H1 H2 H3 H4 H5 H6) as (_ & _ & _ & _ & _ & H).
  exact H.
Defined.

(** X6: offline.  While [connected] is false, [fetch] sends no request,
    in any world.  With a base directory and a map URL set it then returns
    True exactly when the tile file or the bad marker exists, however old:
    nothing expires offline. *)
Theorem fetch_offline (self : MapTile) (w : World) :
  _connected (cls w) = false ->
  requests (snd (fetch self w)) = requests w
  /\ forall base url,
       base <> "" ->
       _base_dir (cls w) = Some base ->
       fst (remote_path self w) = Ok url ->
       fst (fetch self w)
       = Ok (Some (present (fs w) (local_name ".png" base (_zoom (cls w)) self)
                   || present (fs w)
                        (local_name ".bad" base (_zoom (cls w)) self))).
Proof.
  intros Hc. split.
  - destruct (truthy (_base_dir (cls w))) eqn:Ht.
    + destruct (_base_dir (cls w)) as [base |] eqn:Hb; [| discriminate].
      assert (base <> "") as Hne by (intros ->; discriminate).
      destruct (is_local_eval self base Hne w Hb) as (f1 & E & _).
      match type of E with _ = (Ok ?v, _) => destruct v eqn:Hv end.
      * destruct (fetch_hit self base Hne w Hb) as (f2 & E2 & _);
          [now rewrite E |]. now rewrite E2.
      * destruct (fetch_miss self base Hne w Hb) as (f2 & E2 & _);
          [now rewrite E |]. rewrite E2. clear E2.
        destruct (fst (remote_path self (with_fs f2 w))) as [url | e] eqn:Hu.
        -- destruct (fetch_attempt_offline self base Hne (with_fs f2 w) url
                       Hb Hu 0 Hc) as (w' & E3 & Hreq & _).
           rewrite E3. exact Hreq.
        -- unfold fetch_attempt.
           rewrite (bind_raise _ _ (with_fs f2 w) e (with_fs f2 w)).
           ++ reflexivity.
           ++ rewrite remote_path_pure. now rewrite Hu.
    + unfold fetch, fetch_upto.
      now rewrite (bind_raise _ _ _ _ _ (is_local_unconfigured self w Ht)).
  - intros base url Hne Hb Hurl.
    destruct (is_local_eval self base Hne w Hb) as (f1 & E & _).
    assert (forall n, not_expired w n = true) as Hfresh.
    { intros n. apply not_expired_intro. now right; left. }
    unfold present.
    destruct (fs w !! local_name ".png" base (_zoom (cls w)) self) as [n |].
    + rewrite Hfresh in E.
      rewrite (fetch_value self w base url true Hne Hb Hurl);
        [reflexivity | now rewrite E].
    + destruct (fs w !! local_name ".bad" base (_zoom (cls w)) self) as [n |].
      * rewrite Hfresh in E.
        rewrite (fetch_value self w base url true Hne Hb Hurl);
          [reflexivity | now rewrite E].
      * rewrite (fetch_value self w base url false Hne Hb Hurl);
          [now rewrite Hc | now rewrite E].
Qed.

Lemma fetch_offline_witness :
  let w := at_time 1000000
             (with_file tile_4_4_marker (File [] (of_int 0))
                (configured false 60 None (always (Response [])))) in
  requests (snd (fetch tile_4_4 w)) = []
  /\ fst (fetch tile_4_4 w) = Ok (Some true).
Proof.
  intros w.
  assert (_connected (cls w) = false) as Hc by (vm_compute; reflexivity).
  destruct (fetch_offline tile_4_4 w Hc) as (H1 & H2).
  split; [exact H1 |].
  rewrite (H2 "/maps" tile_4_4_url).
  - vm_compute. reflexivity.
  - discriminate.
  - vm_compute. reflexivity.
  - vm_compute. reflexivity.
Defined.

(** X7: [get_local_tile_path] looks at the tile file only.  With a base
    directory set it returns the tile's local path exactly when that file
    exists - whatever its age, whatever [connected] is - and None
    otherwise, the bad marker notwithstanding. *)
Theorem get_local_tile_path_spec (self : MapTile) (w : World) (base : string) :
  base <> "" ->
  _base_dir (cls w) = Some base ->
  let tile := local_name ".png" base (_zoom (cls w)) self in
  (forall n, fs w !! tile = Some n ->
             fst (get_local_tile_path self w) = Ok (Some tile))
  /\ (fs w !! tile = None -> fst (get_local_tile_path self w) = Ok None).
Proof.
  intros Hne Hb tile.
  rewrite (get_local_tile_path_eval self base Hne w Hb). fold tile.
  unfold present. split.
  - intros n ->. reflexivity.
  - intros ->. reflexivity.
Qed.

Lemma get_local_tile_path_spec_witness :
  fst (get_local_tile_path tile_4_4 old_marker) = Ok None
  /\ fst (get_local_tile_path tile_4_4 stale_tile) = Ok (Some tile_4_4_file).
Proof.
  split.
  - apply (get_local_tile_path_spec tile_4_4 old_marker "/maps").
    + discriminate.
    + vm_compute. reflexivity.
    + vm_compute. reflexivity.
  - apply (proj1 (get_local_tile_path_spec tile_4_4 stale_tile "/maps"
                    ltac:(discriminate) ltac:(vm_compute; reflexivity))
             (File [] (of_int 0))).
    vm_compute. reflexivity.
Defined.

(** X8: [local_path] hands out the tile's path whether or not there is a
    tile.  With a base directory and a map URL set it returns that path
    whenever the server can be reached or need not be asked - also after a
    404, after another HTTP error and when not connected, when no such
    file exists; when the server cannot be reached it raises the transport
    failure. *)
Theorem local_path_spec (self : MapTile) (w : World) (base url : string) :
  base <> "" ->
  _base_dir (cls w) = Some base ->
  fst (remote_path self w) = Ok url ->
  let tile := local_name ".png" base (_zoom (cls w)) self in
  match fst (local_path self w) with
  | Ok path => path = Some tile
  | Raise e =>
      exists why,
        e = TransportError why
        /\ _connected (cls w) = true /\ server w url = NoAnswer why
  end
  /\ ((_connected (cls w) = false \/ exists code, server w url = HTTPError code)
      -> fst (is_local self w) = Ok false
      -> fst (local_path self w) = Ok (Some tile)
         /\ fs (snd (local_path self w)) !! tile = fs w !! tile).
Proof.
  intros Hne Hb Hurl tile.
  destruct (_local_path_eval self base Hne w Hb) as (f1 & E1 & L1).
  fold tile in E1, L1.
  assert (local_path self w
          = match fetch self (with_fs f1 w) with
            | (Ok _, w') => (Ok (Some tile), w')
            | (Raise e, w') => (Raise e, w')
            end) as Elp.
  { unfold local_path. rewrite (bind_ok _ _ _ _ _ E1). unfold bind, ret.
    destruct (fetch self (with_fs f1 w)) as [[r | e] w']; reflexivity. }
  destruct (is_local_eval self base Hne (with_fs f1 w) Hb) as (f2 & E2 & _).
  match type of E2 with _ = (Ok ?v, _) => set (local := v) in E2 end.
  pose proof (fetch_value self (with_fs f1 w) base url local Hne Hb
                ltac:(now rewrite remote_path_with_fs)
                ltac:(now rewrite E2)) as Hout.
  autorewrite with world in Hout.
  split.
  - rewrite Elp.
    destruct (fetch self (with_fs f1 w)) as [[r | e] w'] eqn:Ef;
      simpl in *; [reflexivity |].
    destruct local; [discriminate |].
    destruct (_connected (cls w)); simpl in Hout; [| discriminate].
    destruct (server w url) as [body | code | why]; try discriminate.
    injection Hout as ->. now exists why.
  - intros Hfail Hmiss.
    assert (String.length (local_name ".bad" base (_zoom (cls w)) self)
            = String.length tile) as Hlen
      by (subst tile; now rewrite !local_name_length).
    assert (fst (is_local self (with_fs f1 w)) = Ok false) as Hmiss1.
    { rewrite <- Hmiss.
      apply (is_local_same_answer self base Hne w Hb); try reflexivity.
      - simpl. apply L1. fold tile. lia.
      - simpl. apply L1. fold tile. lia. }
    destruct (fetch_miss self base Hne (with_fs f1 w) Hb Hmiss1)
      as (f3 & E3 & L3). simpl in L3. fold tile in L3.
    rewrite Elp, E3. autorewrite with world.
    assert (fst (remote_path self (with_fs f3 w)) = Ok url) as Hurl3
      by now rewrite remote_path_with_fs.
    destruct (_connected (cls w)) eqn:Hc.
    + destruct Hfail as [Hfail | [code Hsrv]]; [discriminate |].
      destruct (Z.eq_dec code 404) as [-> | Hcode].
      * destruct (fetch_attempt_not_found self base Hne 0 url (with_fs f3 w)
                    Hb Hc Hurl3 Hsrv) as (w' & E & _ & _ & Htile).
        rewrite E. simpl. split; [reflexivity |].
        autorewrite with world in Htile. fold tile in Htile.
        rewrite Htile, L3, L1 by lia. reflexivity.
      * destruct (fetch_attempt_http_error self base Hne (with_fs f3 w) url
                    Hb Hurl3 0 code Hc Hsrv Hcode) as (w' & E & _ & Htile & _).
        rewrite E. simpl. split; [reflexivity |].
        autorewrite with world in Htile. fold tile in Htile.
        rewrite Htile, L3, L1 by lia. reflexivity.
    + destruct (fetch_attempt_offline self base Hne (with_fs f3 w) url
                  Hb Hurl3 0 Hc) as (w' & E & _ & Htile & _).
      rewrite E. simpl. split; [reflexivity |].
      autorewrite with world in Htile. fold tile in Htile.
      rewrite Htile, L3, L1 by lia. reflexivity.
Qed.

Lemma local_path_spec_witness :
  fst (local_path tile_4_4 no_such_tile) = Ok (Some tile_4_4_file)
  /\ fs (snd (local_path tile_4_4 no_such_tile)) !! tile_4_4_file = None.
Proof.
  assert ("/maps" <> "") as H0 by discriminate.
  assert (_base_dir (cls no_such_tile) = Some "/maps") as H1
    by (vm_compute; reflexivity).
  assert (fst (remote_path tile_4_4 no_such_tile) = Ok tile_4_4_url) as H2
    by (vm_compute; reflexivity).
  destruct (local_path_spec tile_4_4 no_such_tile "/maps" tile_4_4_url
              H0 H1 H2) as (_ & H).
  destruct H as (H3 & H4).
  - right. exists 404. vm_compute. reflexivity.
  - vm_compute. reflexivity.
  - split; [exact H3 |].
    transitivity (fs no_such_tile !! tile_4_4_file);
      [exact H4 | vm_compute; reflexivity].
Defined.

(** X9: the thread of [threaded_fetch].  With a base directory set,
    [_thread] schedules the callback exactly once when [fetch] returns -
    with the tile's local path after True, with None after False - and not
    at all when [fetch] raises: the exception ends the thread. *)
Theorem thread_spec (idle_add : option string -> Py unit) (self : MapTile)
    (w : World) (base : string) :
  base <> "" ->
  _base_dir (cls w) = Some base ->
  let tile := local_name ".png" base (_zoom (cls w)) self in
  match fetch self w with
  | (Ok (Some true), w1) =>
      exists w2,
        _local_path self w1 = (Ok (Some tile), w2)
        /\ _thread idle_add self w = idle_add (Some tile) w2
        /\ requests w2 = requests w1
        /\ more_directories (fs w1) (fs w2)
  | (Ok _, w1) => _thread idle_add self w = idle_add None w1
  | (Raise e, w1) => _thread idle_add self w = (Raise e, w1)
  end.
Proof.
  intros Hne Hb tile.
  destruct (fetch_keeps self w) as (Kcls & _ & _).
  destruct (fetch self w) as [[[[|] |] | e] w1] eqn:E; simpl in Kcls.
  - destruct (_local_path_eval self base Hne w1) as (f' & E1 & _).
    { now rewrite Kcls. }
    rewrite Kcls in E1. fold tile in E1.
    exists (with_fs f' w1). split; [exact E1 |].
    pose proof (only_adds__local_path self w1) as Hadd.
    rewrite E1 in Hadd. simpl in Hadd.
    repeat split; try apply Hadd.
    unfold _thread. rewrite (bind_ok _ _ _ _ _ E).
    now rewrite (bind_ok _ _ _ _ _ E1).
  - unfold _thread. now rewrite (bind_ok _ _ _ _ _ E).
  - unfold _thread. now rewrite (bind_ok _ _ _ _ _ E).
  - unfold _thread. now rewrite (bind_raise _ _ _ _ _ E).
Qed.

Lemma thread_spec_witness :
  _thread (fun _ => queue_draw) tile_4_4 no_dns
  = (Raise (TransportError DNSFailure), snd (fetch tile_4_4 no_dns)).
Proof.
  assert ("/maps" <> "") as H0 by discriminate.
  assert (_base_dir (cls no_dns) = Some "/maps") as H1
    by (vm_compute; reflexivity).
  pose proof (thread_spec (fun _ => queue_draw) tile_4_4 no_dns "/maps"
                H0 H1) as H.
  assert (fetch tile_4_4 no_dns
          = (Raise (TransportError DNSFailure), snd (fetch tile_4_4 no_dns)))
    as E by (vm_compute; reflexivity).
  rewrite E in H. exact H.
Defined.

(** X10: a tile known to be missing is handed out as a path.  When only
    the bad marker exists and the local-copy check accepts it, [_thread]
    sends no request and gives the callback the path of the tile file -
    a file that does not exist. *)
Theorem thread_hands_out_missing_tile (idle_add : option string -> Py unit)
    (self : MapTile) (w : World) (base : string) (marker : node) :
  base <> "" ->
  _base_dir (cls w) = Some base ->
  let tile := local_name ".png" base (_zoom (cls w)) self in
  let bad := local_name ".bad" base (_zoom (cls w)) self in
  fs w !! tile = None ->
  fs w !! bad = Some marker ->
  _tile_lifetime (cls w) = 0
  \/ _connected (cls w) = false
  \/ lt_int (sub (clock w) (st_mtime marker)) (_tile_lifetime (cls w)) = true ->
  exists w2,
    _thread idle_add self w = idle_add (Some tile) w2
    /\ fs w2 !! tile = None
    /\ requests w2 = requests w.
Proof.
  intros Hne Hb tile bad Htile Hbad Hok.
  destruct (is_local_eval self base Hne w Hb) as (f0 & E0 & _).
  fold tile bad in E0. rewrite Htile, Hbad in E0.
  rewrite (not_expired_intro w marker Hok) in E0.
  destruct (fetch_hit self base Hne w Hb) as (f1 & E1 & L1);
    [now rewrite E0 |]. fold tile in L1.
  destruct (_local_path_eval self base Hne (with_fs f1 w) Hb)
    as (f2 & E2 & L2). simpl in E2, L2. fold tile in E2, L2.
  exists (with_fs f2 w). split; [| split].
  - unfold _thread. rewrite (bind_ok _ _ _ _ _ E1).
    now rewrite (bind_ok _ _ _ _ _ E2).
  - simpl. rewrite L2, L1 by lia. exact Htile.
  - reflexivity.
Qed.

Lemma thread_hands_out_missing_tile_witness :
  exists w2,
    _thread (fun _ => queue_draw) tile_4_4 (at_time 30 old_marker)
    = queue_draw w2
    /\ fs w2 !! tile_4_4_file = None.
Proof.
  destruct (thread_hands_out_missing_tile (fun _ => queue_draw) tile_4_4
              (at_time 30 old_marker) "/maps" (File [] (of_int 0)))
    as (w2 & H1 & H2 & _).
  - discriminate.
  - vm_compute. reflexivity.
  - vm_compute. reflexivity.
  - vm_compute. reflexivity.
  - right. right. vm_compute. reflexivity.
  - exists w2. split; [exact H1 | exact H2].
Defined.




(** ** Configuration *)






(** ** Names of cache files *)

Lemma uint_chars (d : Decimal.uint) :
  all_num_chars (NilEmpty.string_of_uint d).
Proof. unfold all_num_chars. induction d; simpl; auto. Qed.

Lemma fmt_d_chars (n : Z) : all_num_chars (fmt_d n).
Proof.
  unfold fmt_d, NilZero.string_of_int, NilZero.string_of_uint.
  destruct (Z.to_int n) as [d | d].
  - destruct d; try reflexivity; apply uint_chars.
  - unfold all_num_chars. simpl.
    destruct d; try reflexivity; apply uint_chars.
Qed.

Lemma fmt_d_inj (n m : Z) : fmt_d n = fmt_d m -> n = m.
Proof.
  unfold fmt_d. intros H.
  assert (forall z, Z.to_int z <> Decimal.Pos Decimal.Nil
                    /\ Z.to_int z <> Decimal.Neg Decimal.Nil) as Hnil.
  { intros z. split; intros E;
      pose proof (f_equal Z.of_int E) as E0;
      rewrite DecimalZ.of_to in E0; simpl in E0; subst z;
      vm_compute in E; discriminate. }
  destruct (Hnil n) as [N1 N2]. destruct (Hnil m) as [M1 M2].
  pose proof (NilZero.isi (Z.to_int n) N1 N2) as En.
  pose proof (NilZero.isi (Z.to_int m) M1 M2) as Em.
  rewrite H in En. rewrite En in Em. injection Em as Em.
  apply (f_equal Z.of_int) in Em. now rewrite !DecimalZ.of_to in Em.
Qed.

(** Two strings of number characters followed by the same other character
    agree as soon as the whole strings agree. *)
Lemma split_at_delimiter (d : ascii) : forall a a' r r',
  is_num_char d = false ->
  all_num_chars a -> all_num_chars a' ->
  a +:+ String d r = a' +:+ String d r' -> a = a' /\ r = r'.
Proof.
  unfold all_num_chars.
  induction a as [| c a IH]; intros [| c' a'] r r' Hd Ha Ha' H;
    rewrite ?append_cons in H; simpl in *.
  - injection H as <-. auto.
  - injection H as <- _. apply andb_true_iff in Ha' as [Hc _]. congruence.
  - injection H as -> _. apply andb_true_iff in Ha as [Hc _]. congruence.
  - injection H as <- H.
    apply andb_true_iff in Ha as [_ Ha]. apply andb_true_iff in Ha' as [_ Ha'].
    destruct (IH a' r r' Hd Ha Ha' H) as [-> ->]. auto.
Qed.

Lemma append_cancel_r (a a' e : string) : a +:+ e = a' +:+ e -> a = a'.
Proof.
  intros H. apply (f_equal list_ascii_of_string) in H.
  rewrite !chars_app in H. apply app_inv_tail in H.
  apply (f_equal string_of_list_ascii) in H.
  now rewrite !string_of_list_ascii_of_string in H.
Qed.

Lemma tile_stem_inj ext zoom zoom' (t t' : MapTile) :
  tile_stem zoom t +:+ ext = tile_stem zoom' t' +:+ ext ->
  zoom = zoom' /\ x_tile t = x_tile t' /\ y_tile t = y_tile t'.
Proof.
  intros H. apply append_cancel_r in H. unfold tile_stem in H.
  change ("/" +:+ ?s) with (String "/" s) in H.
  apply split_at_delimiter in H as [Hz H];
    [| reflexivity | apply fmt_d_chars | apply fmt_d_chars].
  apply split_at_delimiter in H as [Hx Hy];
    [| reflexivity | apply fmt_d_chars | apply fmt_d_chars].
  auto using fmt_d_inj.
Qed.

Lemma join_relative (a b : string) :
  posixpath.startswith_sep b = false ->
  posixpath.join a b = join_prefix a +:+ b.
Proof.
  intros H. unfold posixpath.join, join_prefix. rewrite H.
  destruct (_ || _); [reflexivity |]. now rewrite append_assoc.
Qed.

Lemma tile_stem_relative ext zoom t :
  posixpath.startswith_sep (tile_stem zoom t +:+ ext) = false.
Proof.
  unfold tile_stem. pose proof (fmt_d_chars zoom) as Hc.
  pose proof (fmt_d_nonempty zoom) as Hn.
  destruct (fmt_d zoom) as [| c s]; [congruence |].
  rewrite !append_cons. simpl.
  unfold all_num_chars in Hc. simpl in Hc.
  apply andb_true_iff in Hc as [Hc _].
  unfold posixpath.is_sep.
  destruct (Ascii.eqb_spec c "/"); [subst c; discriminate | reflexivity].
Qed.

Lemma local_name_inj ext base zoom zoom' (t t' : MapTile) :
  local_name ext base zoom t = local_name ext base zoom' t' ->
  zoom = zoom' /\ x_tile t = x_tile t' /\ y_tile t = y_tile t'.
Proof.
  unfold local_name. rewrite !join_relative by apply tile_stem_relative.
  intros H. apply String.app_inj in H. now apply tile_stem_inj in H.
Qed.

(** X14: cache files do not collide.  Below one base directory, the tile
    files (and likewise the bad markers) of two tiles have the same name
    only if zoom, x and y are the same; the relative path and the URL
    path of a tile determine the three numbers in the same way; and a tile
    file is never a bad marker. *)
Theorem cache_names_are_injective (ext base : string) (zoom zoom' : Z)
    (t t' : MapTile) :
  (local_name ext base zoom t = local_name ext base zoom' t' ->
   zoom = zoom' /\ x_tile t = x_tile t' /\ y_tile t = y_tile t')
  /\ (tile_stem zoom t +:+ ext = tile_stem zoom' t' +:+ ext ->
      zoom = zoom' /\ x_tile t = x_tile t' /\ y_tile t = y_tile t')
  /\ local_name ".png" base zoom t <> local_name ".bad" base zoom' t'.
Proof.
  split; [| split].
  - apply local_name_inj.
  - apply tile_stem_inj.
  - unfold local_name. rewrite !join_relative by apply tile_stem_relative.
    intros H. apply String.app_inj in H.
    apply (f_equal list_ascii_of_string) in H.
    rewrite !chars_app in H. apply (f_equal (@rev ascii)) in H.
    rewrite !rev_app_distr in H. simpl in H. discriminate.
Qed.

Lemma cache_names_are_injective_witness :
  3 = 3 /\ x_tile tile_4_4 = 4 /\ y_tile tile_4_4 = 4.
Proof.
  apply (proj1 (cache_names_are_injective ".png" "/maps" 3 3 tile_4_4
                  {| position := origin; x_tile := 4; y_tile := 4;
                     tile_position := origin |})).
  reflexivity.
Defined.

(** ** Tile arithmetic in binary64 *)

Lemma columns_checked : forallb columns_come_back (seq 0 13) = true.
Proof. vm_compute. reflexivity. Qed.

Lemma xtile_comes_back_upto_12 (zoom x : Z) :
  0 <= zoom <= 12 -> 0 <= x < 2 ^ zoom -> xtile_comes_back zoom x = true.
Proof.
  intros Hz Hx.
  pose proof columns_checked as H. rewrite forallb_forall in H.
  specialize (H (Z.to_nat zoom)). unfold columns_come_back in H.
  rewrite forallb_forall in H.
  assert (In (Z.to_nat zoom) (seq 0 13)) as Hin by (apply in_seq; lia).
  specialize (H Hin (Z.to_nat x)).
  rewrite !Z2Nat.id in H by lia. apply H. apply in_seq.
  split; [lia |]. simpl.
  apply Nat2Z.inj_lt. rewrite Nat2Z.inj_pow. rewrite !Z2Nat.id by lia.
  simpl Z.of_nat. lia.
Qed.

(** X15: the x half of the round trip.  For zoom 0 to 12 and every column
    [0 <= x < 2^zoom], whatever the math library and the row: the
    longitude [num2deg] gives column x is a longitude [deg2num] gives
    column x. *)
Theorem xtile_round_trip (M : MathModule) (zoom x y x' y' : Z)
    (p : Position) :
  0 <= zoom <= 12 ->
  0 <= x < 2 ^ zoom ->
  num2deg M zoom x y = Ok p ->
  deg2num M zoom p = Ok (x', y') ->
  x' = x.
Proof.
  intros Hz Hx Hn Hd.
  pose proof (xtile_comes_back_upto_12 zoom x Hz Hx) as H.
  unfold xtile_comes_back in H.
  unfold num2deg, rbind in Hn. unfold deg2num, rbind in Hd.
  unfold rbind in H.
  destruct (pow2 zoom) as [num | e]; [| discriminate].
  destruct (num2deg_lon num x) as [lon | e]; [| discriminate].
  destruct (num2deg_lat M num y) as [lat | e]; [| discriminate].
  injection Hn as <-. simpl in Hd.
  destruct (deg2num_xtile num lon) as [x0 | e]; [| discriminate].
  destruct (deg2num_ytile M num _) as [y0 | e]; [| discriminate].
  injection Hd as <- <-. now apply Z.eqb_eq.
Qed.

Lemma xtile_round_trip_witness :
  deg2num taylor_math 3 origin = Ok (4, 4) /\ 4 = 4.
Proof.
  assert (deg2num taylor_math 3 origin = Ok (4, 4)) as Hd
    by (vm_compute; reflexivity).
  split; [exact Hd |].
  apply (xtile_round_trip taylor_math 3 4 4 4 4 origin).
  - lia.
  - lia.
  - vm_compute. reflexivity.
  - exact Hd.
Defined.

Lemma east_edge_checked :
  forallb (xtile_at 180 (fun zoom => 2 ^ zoom)) (seq 0 1024) = true.
Proof. vm_compute. reflexivity. Qed.

Lemma west_edge_checked :
  forallb (xtile_at (-180) (fun _ => 0)) (seq 0 1024) = true.
Proof. vm_compute. reflexivity. Qed.

(** X16: the edges of the map.  At every zoom from 0 to 1023 [deg2num]
    gives longitude -180.0 the column 0 and longitude 180.0 the column
    [2^zoom], one past the last column of the grid. *)
Theorem deg2num_at_the_date_line (M : MathModule) (zoom x y : Z)
    (lat : float) :
  0 <= zoom < 1024 ->
  (deg2num M zoom {| latitude := lat; longitude := of_int (-180) |}
   = Ok (x, y) -> x = 0)
  /\ (deg2num M zoom {| latitude := lat; longitude := of_int 180 |}
      = Ok (x, y) -> x = 2 ^ zoom).
Proof.
  intros Hz.
  assert (In (Z.to_nat zoom) (seq 0 1024)) as Hin by (apply in_seq; lia).
  pose proof east_edge_checked as He. rewrite forallb_forall in He.
  pose proof west_edge_checked as Hw. rewrite forallb_forall in Hw.
  specialize (He _ Hin). specialize (Hw _ Hin).
  unfold xtile_at, rbind in He, Hw. rewrite Z2Nat.id in He, Hw by lia.
  split; intros Hd; unfold deg2num, rbind in Hd;
    cbn [longitude latitude] in Hd;
    destruct (pow2 zoom) as [num | e]; try discriminate.
  - destruct (deg2num_xtile num (of_int (-180))) as [x0 | e];
      [| discriminate].
    destruct (deg2num_ytile M num _) as [y0 | e]; [| discriminate].
    injection Hd as <- <-. now apply Z.eqb_eq.
  - destruct (deg2num_xtile num (of_int 180)) as [x0 | e];
      [| discriminate].
    destruct (deg2num_ytile M num _) as [y0 | e]; [| discriminate].
    injection Hd as <- <-. now apply Z.eqb_eq.
Qed.

Lemma deg2num_at_the_date_line_witness :
  deg2num taylor_math 3
    {| latitude := S754_zero false; longitude := of_int 180 |} = Ok (8, 4)
  /\ 8 = 2 ^ 3.
Proof.
  assert (deg2num taylor_math 3
            {| latitude := S754_zero false; longitude := of_int 180 |}
          = Ok (8, 4)) as Hd by (vm_compute; reflexivity).
  split; [exact Hd |].
  apply (proj2 (deg2num_at_the_date_line taylor_math 3 8 4 (S754_zero false)
                  ltac:(lia))).
  exact Hd.
Defined.

(** X17: what the constructor guarantees.  A tile that [MapTile(...)]
    has built holds the indices of its own position: [path_els], at the
    same zoom, returns [(x_tile, y_tile)].  Built from a position, it keeps
    that position and [tile_position] is the corner of its indices; built
    from indices, its position and [tile_position] are both the corner of
    the indices given - which need not be the indices it holds. *)
Theorem MapTile__init__invariant (M : MathModule) (zoom : Z)
    (given : option Position) (x_axis y_axis : Z) (tile : MapTile) :
  MapTile__init__ M zoom given x_axis y_axis = Ok tile ->
  path_els M zoom tile = Ok (x_tile tile, y_tile tile)
  /\ match given with
     | Some p =>
         position tile = p
         /\ num2deg M zoom (x_tile tile) (y_tile tile)
            = Ok (tile_position tile)
     | None =>
         num2deg M zoom x_axis y_axis = Ok (position tile)
         /\ tile_position tile = position tile
     end.
Proof.
  unfold MapTile__init__, path_els, rbind. intros H.
  destruct given as [p |].
  - destruct (deg2num M zoom p) as [[x y] | e] eqn:Ed; [| discriminate].
    destruct (num2deg M zoom x y) as [tp | e] eqn:En; [| discriminate].
    injection H as <-. simpl. auto.
  - destruct (num2deg M zoom x_axis y_axis) as [p | e] eqn:En;
      [| discriminate].
    destruct (deg2num M zoom p) as [[x y] | e] eqn:Ed; [| discriminate].
    injection H as <-. simpl. auto.
Qed.

Lemma MapTile__init__invariant_witness :
  path_els sampled_math 2
    {| position := {| latitude := degrees val_atan;
                      longitude := of_int (-180) |};
       x_tile := 0; y_tile := 0;
       tile_position := {| latitude := degrees val_atan;
                           longitude := of_int (-180) |} |}
  = Ok (0, 0).
Proof.
  apply (MapTile__init__invariant sampled_math 2 None 0 1).
  vm_compute. reflexivity.
Defined.

(** X18: adding and subtracting.  [self + (dx, dy)] is the tile built
    from the shifted indices, so subtracting [self] again gives [(dx, dy)]
    exactly when the shifted indices come back from their own corner. *)
Theorem add_then_sub (M : MathModule) (zoom dx dy : Z)
    (self shifted : MapTile) :
  MapTile__add__ M zoom self (dx, dy) = Ok shifted ->
  (MapTile__sub__ shifted self = (dx, dy)
   <-> (let? corner := num2deg M zoom (x_tile self + dx) (y_tile self + dy) in
        deg2num M zoom corner)
       = Ok (x_tile self + dx, y_tile self + dy)).
Proof.
  unfold MapTile__add__, MapTile__init__, MapTile__sub__, rbind. intros H.
  destruct (num2deg M zoom (x_tile self + dx) (y_tile self + dy))
    as [p | e]; [| discriminate].
  destruct (deg2num M zoom p) as [[x y] | e]; [| discriminate].
  injection H as <-. simpl. split.
  - intros E. injection E as Ex Ey. f_equal. f_equal; lia.
  - intros E. injection E as -> ->. f_equal; lia.
Qed.

Lemma add_then_sub_witness :
  MapTile__sub__ tile_4_4 tile_4_4 = (0, 0).
Proof.
  apply (proj2 (add_then_sub taylor_math 3 0 0 tile_4_4 tile_4_4
                  ltac:(vm_compute; reflexivity))).
  vm_compute. reflexivity.
Defined.

(** X19: tiles do not overlap, and their borders belong to none.  The
    east edge of a tile is the west edge of its eastern neighbour, the
    south edge the north edge of its southern neighbour, bit for bit; as
    containment is strict, a point on such a shared edge is in neither
    tile. *)
Theorem shared_edges_belong_to_no_tile (M : MathModule) (zoom : Z)
    (self east south : MapTile)
    (lat_min lon_min lat_max lon_max : float)
    (e_lat_min e_lon_min e_lat_max e_lon_max : float)
    (s_lat_min s_lon_min s_lat_max s_lon_max : float) :
  tile_edges M zoom self = Ok (lat_min, lon_min, lat_max, lon_max) ->
  tile_edges M zoom east = Ok (e_lat_min, e_lon_min, e_lat_max, e_lon_max) ->
  tile_edges M zoom south = Ok (s_lat_min, s_lon_min, s_lat_max, s_lon_max) ->
  x_tile east = x_tile self + 1 ->
  y_tile south = y_tile self + 1 ->
  e_lon_min = lon_max
  /\ s_lat_max = lat_min
  /\ (forall point,
        longitude point = lon_max ->
        MapTile__contains__ M zoom self point = Ok false
        /\ MapTile__contains__ M zoom east point = Ok false)
  /\ (forall point,
        latitude point = lat_min ->
        MapTile__contains__ M zoom self point = Ok false
        /\ MapTile__contains__ M zoom south point = Ok false).
Proof.
  intros Hs He Hso Hx Hy.
  assert (e_lon_min = lon_max /\ s_lat_max = lat_min) as [-> ->].
  { unfold tile_edges, num2deg, rbind in Hs, He, Hso.
    rewrite Hx in He. rewrite Hy in Hso.
    destruct (pow2 zoom) as [num | e]; [| discriminate].
    destruct (num2deg_lon num (x_tile self)); [| discriminate].
    destruct (num2deg_lat M num (y_tile self)); [| discriminate].
    destruct (num2deg_lon num (x_tile self + 1)); [| discriminate].
    destruct (num2deg_lat M num (y_tile self + 1)); [| discriminate].
    destruct (num2deg_lat M num (y_tile east)); [| discriminate].
    destruct (num2deg_lon num (x_tile self + 1 + 1)); [| discriminate].
    destruct (num2deg_lat M num (y_tile east + 1)); [| discriminate].
    destruct (num2deg_lon num (x_tile south)); [| discriminate].
    destruct (num2deg_lon num (x_tile south + 1)); [| discriminate].
    destruct (num2deg_lat M num (y_tile self + 1 + 1)); [| discriminate].
    simpl in *. injection Hs as <- <- <- <-. injection He as <- <- <- <-.
    injection Hso as <- <- <- <-. auto. }
  split; [reflexivity |]. split; [reflexivity |].
  unfold MapTile__contains__, rbind. rewrite Hs, He, Hso.
  split; intros point ->; rewrite !ltb_irrefl;
    repeat (rewrite ?andb_false_r, ?andb_false_l); auto.
Qed.

Lemma shared_edges_belong_to_no_tile_witness :
  MapTile__contains__ taylor_math 3 tile_4_4
    {| latitude := of_int (-10); longitude := of_int 45 |} = Ok false.
Proof.
  set (east := {| position := origin; x_tile := 5; y_tile := 4;
                  tile_position := origin |}).
  set (south := {| position := origin; x_tile := 4; y_tile := 5;
                   tile_position := origin |}).
  assert (exists a b c d, tile_edges taylor_math 3 tile_4_4 = Ok (a, b, c, d)
                          /\ d = of_int 45) as (a & b & c & d & E1 & Hd).
  { vm_compute. repeat eexists. }
  assert (exists a b c d, tile_edges taylor_math 3 east = Ok (a, b, c, d))
    as (a2 & b2 & c2 & d2 & E2).
  { vm_compute. repeat eexists. }
  assert (exists a b c d, tile_edges taylor_math 3 south = Ok (a, b, c, d))
    as (a3 & b3 & c3 & d3 & E3).
  { vm_compute. repeat eexists. }
  destruct (shared_edges_belong_to_no_tile taylor_math 3 tile_4_4 east south
              _ _ _ _ _ _ _ _ _ _ _ _ E1 E2 E3 eq_refl eq_refl)
    as (_ & _ & H & _).
  apply H. simpl. now rewrite Hd.
Defined.

(** X20: the cache file follows the current zoom.  A tile keeps the
    indices it was built with, but its path is formed with the zoom of the
    class at the time of the call: after [set_zoom] to another level, the
    same tile object is looked up, and stored, under another name. *)
Theorem path_follows_current_zoom (self : MapTile) (w : World)
    (base : string) (zoom : Z) :
  base <> "" ->
  _base_dir (cls w) = Some base ->
  zoom <> _zoom (cls w) ->
  let w' := exec (set_zoom zoom) w in
  fst (_local_path self w) = Ok (Some (local_name ".png" base (_zoom (cls w)) self))
  /\ fst (_local_path self w') = Ok (Some (local_name ".png" base zoom self))
  /\ fst (_local_path self w') <> fst (_local_path self w).
Proof.
  intros Hne Hb Hz w'.
  destruct (_local_path_eval self base Hne w Hb) as (f1 & E1 & _).
  destruct (_local_path_eval self base Hne w' Hb) as (f2 & E2 & _).
  rewrite E1, E2. simpl. repeat split.
  intros H. injection H as H. apply local_name_inj in H. tauto.
Qed.

Lemma path_follows_current_zoom_witness :
  fst (_local_path tile_4_4 (exec (set_zoom 4) no_such_tile))
  = Ok (Some "/maps/4/4/4.png").
Proof.
  apply (path_follows_current_zoom tile_4_4 no_such_tile "/maps" 4).
  - discriminate.
  - vm_compute. reflexivity.
  - vm_compute. discriminate.
Defined.

(** ** The access key over a whole run *)

Lemma after_call_keeps_map_url_key (c : call) (w : World) :
  _map_url_key (cls (after_call c w)) = _map_url_key (cls w).
Proof.
  destruct c; unfold after_call, exec.
  - reflexivity.
  - apply set_map_info_key.
  - reflexivity.
  - reflexivity.
  - reflexivity.
  - reflexivity.
  - f_equal. apply (keeps_is_local cls). reflexivity.
  - f_equal. apply (keeps_get_local_tile_path cls). reflexivity.
  - f_equal. apply (keeps_fetch_upto cls); reflexivity.
  - f_equal. unfold local_path.
    apply (keeps_bind cls); [apply keeps__local_path; reflexivity | intros p].
    apply (keeps_bind cls); [| intros; apply keeps_ret].
    apply (keeps_fetch_upto cls); reflexivity.
Qed.

(** X21: no call ever sets the access key that [remote_path] reads.
    Starting from the class as its body defines it, after any sequence of
    configuration and cache calls - [set_map_info] with a key included -
    [_map_url_key] is still None, and [remote_path], once a map URL is
    set, is that URL followed by the relative path of the tile and nothing
    else. *)
Theorem access_key_is_never_appended (calls : list call)
    (srv : string -> http_outcome) (self : MapTile) :
  let w := after_calls calls (fresh_world srv) in
  _map_url_key (cls w) = None
  /\ forall map_url,
       _map_url (cls w) = Some map_url ->
       fst (remote_path self w)
       = Ok (map_url +:+ tile_stem (_zoom (cls w)) self +:+ ".png").
Proof.
  intros w.
  assert (_map_url_key (cls w) = None) as Hk.
  { subst w. unfold after_calls.
    assert (forall v, _map_url_key (cls v) = None ->
              _map_url_key (cls (fold_left (fun w c => after_call c w)
                                   calls v)) = None) as H.
    { induction calls as [| c cs IH]; intros v Hv; simpl; [exact Hv |].
      apply IH. now rewrite after_call_keeps_map_url_key. }
    apply H. reflexivity. }
  split; [exact Hk |].
  intros map_url Hu. now apply remote_path_without_key.
Qed.

Lemma access_key_is_never_appended_witness :
  fst (remote_path tile_4_4
         (after_calls [call_set_map_info "/maps" "http://tiles.example/"
                         (Some "?apikey=secret");
                       call_set_zoom 3; call_set_connected true;
                       call_fetch tile_4_4]
            (fresh_world (always (Response [])))))
  = Ok "http://tiles.example/3/4/4.png".
Proof.
  apply (proj2 (access_key_is_never_appended
                  [call_set_map_info "/maps" "http://tiles.example/"
                     (Some "?apikey=secret");
                   call_set_zoom 3; call_set_connected true;
                   call_fetch tile_4_4]
                  (always (Response [])) tile_4_4)
           "http://tiles.example/").
  vm_compute. reflexivity.
Defined.

(** X22: HTTP errors in [fetch_url].  While connected, when the server
    answers with an HTTP error status, [fetch_url] raises [MapTileNotFound]
    if the status is 404 and [MapFetchError], carrying the status, for any
    other; one request was sent and the file system is untouched: the
    destination file is neither created nor changed. *)
Theorem fetch_url_http_errors (self : MapTile) (url : string)
    (local : option string) (code : Z) (w : World) :
  _connected (cls w) = true ->
  server w url = HTTPError code ->
  let w' := snd (fetch_url self url local w) in
  (code = 404 ->
   fst (fetch_url self url local w) = Raise (MapTileNotFound "404 error code"))
  /\ (code <> 404 ->
      fst (fetch_url self url local w) = Raise (MapFetchError code))
  /\ requests w' = url :: requests w
  /\ fs w' = fs w.
Proof.
  intros Hc Hsrv w'. subst w'.
  rewrite (fetch_url_eval self url local w Hc), Hsrv. simpl.
  autorewrite with world.
  split; [intros ->; reflexivity |].
  split; [intros Hcode; apply Z.eqb_neq in Hcode; now rewrite Hcode |].
  unfold after_request.
  destruct (truthy (_proxy (cls w))); split; reflexivity.
Qed.

Lemma fetch_url_http_errors_witness :
  fst (fetch_url tile_4_4 tile_4_4_url (Some tile_4_4_file)
         (configured true 0 None (always (HTTPError 503))))
  = Raise (MapFetchError 503).
Proof.
  apply (fetch_url_http_errors tile_4_4 tile_4_4_url (Some tile_4_4_file) 503
           (configured true 0 None (always (HTTPError 503)))).
  - vm_compute. reflexivity.
  - vm_compute. reflexivity.
  - discriminate.
Defined.
